(** * A VPC provisioning script: CIDR validation and the provisioning sequence

    Shallow embedding of [argpase.py]: the argument validator
    [validate_cidr], the four step functions [create_vpc],
    [create_internet_gateway], [create_subnet], [create_route_table] and the
    driver [main].

    Python strings are modelled as [string] (the UTF-8 bytes of the text),
    Python integers as [Z], exceptions as values of [exn] carried by
    [result].  The EC2 resource client is an arbitrary deterministic state
    machine answering each method call with a value or an exception. *)

From Stdlib Require Import String Ascii List ZArith Lia Bool.
Import ListNotations.

Open Scope string_scope.
Open Scope Z_scope.

(** ** Exceptions and results *)

(** The exception classes that occur in the script.  [ValueError],
    [AddressValueError] and [NetmaskValueError] are raised by the standard
    [ipaddress] module (the latter two are subclasses of the first);
    [ArgumentTypeError] is raised by [validate_cidr]; [ProviderError] stands
    for any [Exception] raised by the EC2 client, with its [str()] text. *)
Inductive exn : Type :=
| ValueError
| AddressValueError
| NetmaskValueError
| ArgumentTypeError (msg : string)
| ProviderError (msg : string).

Definition isinstance_ValueError (e : exn) : bool :=
  match e with
  | ValueError | AddressValueError | NetmaskValueError => true
  | ArgumentTypeError _ | ProviderError _ => false
  end.

Definition isinstance_AddressValueError (e : exn) : bool :=
  match e with AddressValueError => true | _ => false end.

Definition isinstance_NetmaskValueError (e : exn) : bool :=
  match e with NetmaskValueError => true | _ => false end.

Inductive result (A : Type) : Type :=
| Ok (a : A)
| Raise (e : exn).
Arguments Ok {A} a.
Arguments Raise {A} e.

Definition rbind {A B} (r : result A) (k : A -> result B) : result B :=
  match r with
  | Ok a => k a
  | Raise e => Raise e
  end.

(** ** The string methods used by the parser *)

Module PyStr.

Definition is_ascii_digit (c : ascii) : bool :=
  ((48 <=? nat_of_ascii c) && (nat_of_ascii c <=? 57))%nat.

Fixpoint all_digits (s : string) : bool :=
  match s with
  | EmptyString => true
  | String c s' => is_ascii_digit c && all_digits s'
  end.

(** [s.isascii() and s.isdigit()]: [isdigit] is false on the empty
    string; on ASCII text it tests for the characters 0 to 9.  Every byte
    of a non-ASCII character is above 127, so the test on bytes agrees
    with the test on code points. *)
Definition isascii_and_isdigit (s : string) : bool :=
  match s with
  | EmptyString => false
  | String _ _ => all_digits s
  end.

(** [s.split(sep)] for a one-character separator. *)
Fixpoint split (sep : ascii) (s : string) : list string :=
  match s with
  | EmptyString => [EmptyString]
  | String c s' =>
      if Ascii.eqb c sep then EmptyString :: split sep s'
      else match split sep s' with
           | [] => [String c EmptyString]
           | p :: ps => String c p :: ps
           end
  end.

(** [sep in s] for a one-character [sep]. *)
Fixpoint contains (sep : ascii) (s : string) : bool :=
  match s with
  | EmptyString => false
  | String c s' => Ascii.eqb c sep || contains sep s'
  end.

Definition digit_value (c : ascii) : Z := Z.of_nat (nat_of_ascii c) - 48.

Fixpoint int10_from (acc : Z) (s : string) : Z :=
  match s with
  | EmptyString => acc
  | String c s' => int10_from (acc * 10 + digit_value c) s'
  end.

(** [int(s, 10)] on a string of ASCII digits. *)
Definition int10 (s : string) : Z := int10_from 0 s.

Definition len (s : string) : Z := Z.of_nat (String.length s).

(** The interpreter's limit on the number of digits of a decimal literal
    ([sys.get_int_max_str_digits()], 4300 unless reconfigured; the script
    does not change it). *)
Definition int_max_str_digits : Z := 4300.

(** [int(s)] on a string of ASCII digits: [ValueError] when the string has
    more digits than the limit, leading zeros included. *)
Definition py_int (s : string) : result Z :=
  if int_max_str_digits <? len s then Raise ValueError else Ok (int10 s).

(** [sep.join(parts)]. *)
Fixpoint join (sep : string) (parts : list string) : string :=
  match parts with
  | [] => EmptyString
  | [p] => p
  | p :: ps => p ++ sep ++ join sep ps
  end.

End PyStr.

(** ** The part of the standard [ipaddress] module behind [IPv4Network(s)]

    Transcribed from CPython's [Lib/ipaddress.py] (3.10 and later, which the
    script's [str | None] annotation requires), restricted to a [str]
    argument.  An [IPv4Address] is represented by its integer [_ip]. *)

Module ipaddress.

Definition _max_prefixlen : Z := 32.
Definition _ALL_ONES : Z := 2 ^ 32 - 1.

Inductive mask_arg : Type :=
| MaskInt (n : Z)
| MaskStr (s : string).

Definition _split_optional_netmask (address : string) : result (list string) :=
  let addr := PyStr.split "/" address in
  if (2 <? length addr)%nat then Raise AddressValueError else Ok addr.

Definition _split_addr_prefix (address : string)
  : result (string * mask_arg) :=
  rbind (_split_optional_netmask address) (fun parts =>
    match parts with
    | a :: m :: _ => Ok (a, MaskStr m)
    | [a] => Ok (a, MaskInt _max_prefixlen)
    | [] => Raise ValueError
    end).

Definition bit_length (x : Z) : Z :=
  if x =? 0 then 0 else Z.log2 (Z.abs x) + 1.

Definition _count_righthand_zero_bits (number bits : Z) : Z :=
  if number =? 0 then bits
  else Z.min bits (bit_length (Z.land (Z.lnot number) (number - 1))).

Definition _parse_octet (octet_str : string) : result Z :=
  if String.eqb octet_str "" then Raise ValueError
  else if negb (PyStr.isascii_and_isdigit octet_str) then Raise ValueError
  else if 3 <? PyStr.len octet_str then Raise ValueError
  else if negb (String.eqb octet_str "0")
          && match octet_str with
             | String c _ => Ascii.eqb c "0"
             | EmptyString => false
             end
       then Raise ValueError
  else
    let octet_int := PyStr.int10 octet_str in
    if 255 <? octet_int then Raise ValueError else Ok octet_int.

(** [map(cls._parse_octet, octets)], consumed from the left: the first
    octet that raises ends the iteration. *)
Fixpoint parse_octets (octets : list string) : result (list Z) :=
  match octets with
  | [] => Ok []
  | o :: rest =>
      rbind (_parse_octet o) (fun b =>
      rbind (parse_octets rest) (fun bs => Ok (b :: bs)))
  end.

(** [int.from_bytes(bs, 'big')]. *)
Definition from_bytes_big (bs : list Z) : Z :=
  fold_left (fun acc b => acc * 256 + b) bs 0.

Definition _ip_int_from_string (ip_str : string) : result Z :=
  if String.eqb ip_str "" then Raise AddressValueError
  else
    let octets := PyStr.split "." ip_str in
    if negb (length octets =? 4)%nat then Raise AddressValueError
    else
      match parse_octets octets with
      | Ok bs => Ok (from_bytes_big bs)
      | Raise e =>
          if isinstance_ValueError e then Raise AddressValueError
          else Raise e
      end.

Definition IPv4Address (address : string) : result Z :=
  if PyStr.contains "/" address then Raise AddressValueError
  else _ip_int_from_string address.

Definition _ip_int_from_prefix (prefixlen : Z) : Z :=
  Z.lxor _ALL_ONES (Z.shiftr _ALL_ONES prefixlen).

Definition _prefix_from_ip_int (ip_int : Z) : result Z :=
  let trailing_zeroes := _count_righthand_zero_bits ip_int _max_prefixlen in
  let prefixlen := _max_prefixlen - trailing_zeroes in
  let leading_ones := Z.shiftr ip_int trailing_zeroes in
  let all_ones := Z.shiftl 1 prefixlen - 1 in
  if negb (leading_ones =? all_ones) then Raise ValueError
  else Ok prefixlen.

Definition _report_invalid_netmask {A} : result A := Raise NetmaskValueError.

(** [int(prefixlen_str)] raises [ValueError] on a run of digits only
    through the interpreter's limit on their number; the [except ValueError]
    turns that into an invalid netmask. *)
Definition _prefix_from_prefix_string (prefixlen_str : string) : result Z :=
  if negb (PyStr.isascii_and_isdigit prefixlen_str)
  then _report_invalid_netmask
  else
    match PyStr.py_int prefixlen_str with
    | Raise e =>
        if isinstance_ValueError e then _report_invalid_netmask else Raise e
    | Ok prefixlen =>
        if negb ((0 <=? prefixlen) && (prefixlen <=? _max_prefixlen))
        then _report_invalid_netmask
        else Ok prefixlen
    end.

Definition _prefix_from_ip_string (ip_str : string) : result Z :=
  match _ip_int_from_string ip_str with
  | Raise e =>
      if isinstance_AddressValueError e then _report_invalid_netmask
      else Raise e
  | Ok ip_int =>
      match _prefix_from_ip_int ip_int with
      | Ok p => Ok p
      | Raise e =>
          if isinstance_ValueError e then
            let ip_int := Z.lxor ip_int _ALL_ONES in
            match _prefix_from_ip_int ip_int with
            | Ok p => Ok p
            | Raise e' =>
                if isinstance_ValueError e' then _report_invalid_netmask
                else Raise e'
            end
          else Raise e
      end
  end.

(** Returns the pair (netmask, prefix length).  The class-level cache of
    the original memoises a pure computation and is left out. *)
Definition _make_netmask (arg : mask_arg) : result (Z * Z) :=
  rbind
    match arg with
    | MaskInt prefixlen =>
        if negb ((0 <=? prefixlen) && (prefixlen <=? _max_prefixlen))
        then _report_invalid_netmask
        else Ok prefixlen
    | MaskStr s =>
        match _prefix_from_prefix_string s with
        | Ok p => Ok p
        | Raise e =>
            if isinstance_NetmaskValueError e
            then _prefix_from_ip_string s
            else Raise e
        end
    end
    (fun prefixlen => Ok (_ip_int_from_prefix prefixlen, prefixlen)).

Record IPv4Network_obj : Type := {
  network_address : Z;
  netmask : Z;
  _prefixlen : Z
}.

Definition IPv4Network (address : string) (strict : bool)
  : result IPv4Network_obj :=
  rbind (_split_addr_prefix address) (fun '(addr, mask) =>
  rbind (IPv4Address addr) (fun network_address =>
  rbind (_make_netmask mask) (fun '(netmask, prefixlen) =>
    let packed := network_address in
    if negb (Z.land packed netmask =? packed) then
      if strict then Raise ValueError
      else Ok {| network_address := Z.land packed netmask;
                 netmask := netmask; _prefixlen := prefixlen |}
    else Ok {| network_address := network_address;
               netmask := netmask; _prefixlen := prefixlen |}))).

End ipaddress.

(** ** [validate_cidr] *)

Definition validate_cidr (cidr : string) : result string :=
  match ipaddress.IPv4Network cidr true with
  | Ok _ => Ok cidr
  | Raise e =>
      if isinstance_ValueError e
      then Raise (ArgumentTypeError ("Invalid CIDR: " ++ cidr))
      else Raise e
  end.

(** ** Textual shapes of the validator's input *)

(** A non-empty run of the characters 0 to 9. *)
Definition decimal (s : string) : Prop := PyStr.isascii_and_isdigit s = true.

(** A decimal numeral for an octet: value in [0,255]. *)
Definition octet_text (o : string) : Prop :=
  decimal o /\ 0 <= PyStr.int10 o <= 255.

(** A decimal numeral for a prefix length: value in [0,32]. *)
Definition prefix_text (p : string) : Prop :=
  decimal p /\ 0 <= PyStr.int10 p <= 32.

(** The text [a.b.c.d] with every octet in [0,255]. *)
Definition dotted_quad (q : string) : Prop :=
  exists o1 o2 o3 o4,
    q = PyStr.join "." [o1; o2; o3; o4] /\
    Forall octet_text [o1; o2; o3; o4].

(** The form [a.b.c.d/n] of the specification. *)
Definition cidr_form (s : string) : Prop :=
  exists q p, s = q ++ "/" ++ p /\ dotted_quad q /\ prefix_text p.

(** The forms the validator lets through: a bare address, an address with a
    prefix length, an address with a dotted-quad mask. *)
Definition network_form (s : string) : Prop :=
  dotted_quad s \/
  cidr_form s \/
  (exists q m, s = q ++ "/" ++ m /\ dotted_quad q /\ dotted_quad m).

(** The integer denoted by the four octets, most significant first. *)
Definition address_value (octets : list string) : Z :=
  ipaddress.from_bytes_big (map PyStr.int10 octets).

Definition invalid_cidr (cidr : string) : exn :=
  ArgumentTypeError ("Invalid CIDR: " ++ cidr).

(** * The provisioning sequence *)

(** ** The EC2 resource client

    The method calls the script makes on [boto3.resource("ec2")] and on the
    resource objects it hands back.  A resource object is represented by its
    [id]; a method of a resource object takes that id as first argument. *)

Module EC2.

Inductive call : Type :=
| create_vpc (CidrBlock : string)
| wait_until_available (vpc : string)
| create_tags (resource Key Value : string)
| create_internet_gateway
| attach_to_vpc (igw VpcId : string)
| create_subnet (VpcId CidrBlock AvailabilityZone : string)
| create_route_table (VpcId : string)
| associate_with_subnet (table SubnetId : string)
| create_route (table DestinationCidrBlock GatewayId : string)
| detach_from_vpc (igw VpcId : string)
| delete (resource : string).

(** The answer to a call: the id of the object returned (ignored by the
    script for the methods that return nothing it uses), or an exception
    of class [Exception] with its [str()] text. *)
Inductive reply : Type :=
| Returns (id : string)
| Raises (msg : string).

Definition method (c : call) : string :=
  match c with
  | create_vpc _ => "create_vpc"
  | wait_until_available _ => "wait_until_available"
  | create_tags _ _ _ => "create_tags"
  | create_internet_gateway => "create_internet_gateway"
  | attach_to_vpc _ _ => "attach_to_vpc"
  | create_subnet _ _ _ => "create_subnet"
  | create_route_table _ => "create_route_table"
  | associate_with_subnet _ _ => "associate_with_subnet"
  | create_route _ _ _ => "create_route"
  | detach_from_vpc _ _ => "detach_from_vpc"
  | delete _ => "delete"
  end.

(** The calls that undo a creation. *)
Definition is_teardown (c : call) : bool :=
  match c with
  | detach_from_vpc _ _ | delete _ => true
  | _ => false
  end.

End EC2.

(** ** Command line *)

Inductive flag : Type :=
| opt_vpc_cidr
| opt_vpc_name
| opt_public_subnet_cidr
| opt_private_subnet_cidr
| opt_availability_zone.

Definition flag_eqb (a b : flag) : bool :=
  match a, b with
  | opt_vpc_cidr, opt_vpc_cidr
  | opt_vpc_name, opt_vpc_name
  | opt_public_subnet_cidr, opt_public_subnet_cidr
  | opt_private_subnet_cidr, opt_private_subnet_cidr
  | opt_availability_zone, opt_availability_zone => true
  | _, _ => false
  end.

(** The flags in the order of their [add_argument] calls; all are
    [required=True]. *)
Definition declared_flags : list flag :=
  [opt_vpc_cidr; opt_vpc_name; opt_public_subnet_cidr;
   opt_private_subnet_cidr; opt_availability_zone].

(** The [type=] converter of a flag; the default is the identity. *)
Definition flag_type (f : flag) : string -> result string :=
  match f with
  | opt_vpc_cidr | opt_public_subnet_cidr | opt_private_subnet_cidr =>
      validate_cidr
  | opt_vpc_name | opt_availability_zone => fun s => Ok s
  end.

(** The command line after tokenisation: the occurrences of the five flags
    with their values, in the order given.  How [argparse] splits [sys.argv]
    into flags and values (abbreviated flags, [--flag=value], unknown
    flags, [-h]) is not modelled. *)
Definition command_line : Type := list (flag * string).

Record Namespace : Type := {
  vpc_cidr : string;
  vpc_name : string;
  public_subnet_cidr : string;
  private_subnet_cidr : string;
  availability_zone : string
}.

Inductive parser_error : Type :=
| bad_argument (f : flag) (cause : exn)
| missing_arguments (fs : list flag).

(** ** Observable events *)

Inductive step : Type :=
| step_create_vpc (cidr_block name : string)
| step_create_internet_gateway (vpc_id : string)
| step_create_subnet (vpc_id cidr_block name az : string)
| step_create_route_table (vpc_id subnet_id : string)
    (igw_id : option string) (name : string).

Inductive event : Type :=
| Resource (service : string)       (* boto3.resource(service) *)
| Enter (s : step)                  (* a step function is called *)
| Call (c : EC2.call) (r : EC2.reply)   (* a client method and its answer *)
| Printed (line : string)             (* print(line) *)
| Usage (err : parser_error).       (* parser.error(...) on stderr *)

Definition is_failure (e : event) : bool :=
  match e with
  | Call _ (EC2.Raises _) => true
  | _ => false
  end.

Fixpoint steps_of (t : list event) : list step :=
  match t with
  | [] => []
  | Enter s :: t' => s :: steps_of t'
  | _ :: t' => steps_of t'
  end.

Fixpoint calls_of (t : list event) : list EC2.call :=
  match t with
  | [] => []
  | Call c _ :: t' => c :: calls_of t'
  | _ :: t' => calls_of t'
  end.

Fixpoint stdout_of (t : list event) : list string :=
  match t with
  | [] => []
  | Printed l :: t' => l :: stdout_of t'
  | _ :: t' => stdout_of t'
  end.

Definition clean (t : list event) : Prop :=
  Forall (fun e => is_failure e = false) t.

(** ** Exit *)

(** [sys.exit(n)] and [parser.error] end the process by raising
    [SystemExit], which is not an [Exception]. *)
Inductive termination : Type :=
| returns_normally
| SystemExit (code : Z).

(** ** Output text *)

Definition utf8 (bytes : list nat) : string :=
  string_of_list_ascii (map ascii_of_nat bytes).

Definition check_mark : string := utf8 [226; 156; 133]%nat.
Definition cross_mark : string := utf8 [226; 157; 140]%nat.
Definition party_popper : string := utf8 [240; 159; 142; 137]%nat.

Definition error_line (msg : string) : string :=
  cross_mark ++ " Error: " ++ msg.

Definition truthy (s : option string) : bool :=
  match s with
  | None => false
  | Some v => negb (String.eqb v "")
  end.

(** ** The script, over an arbitrary client *)

Section Script.

(** The client: a state and the answer to each call in each state. *)
Variable St : Type.
Variable respond : St -> EC2.call -> St * EC2.reply.

(** Computations that talk to the client, write to the trace, and may
    raise. *)
Definition M (A : Type) : Type := St -> St * list event * result A.

Definition ret {A} (a : A) : M A := fun s => (s, [], Ok a).

Definition bind {A B} (m : M A) (k : A -> M B) : M B :=
  fun s =>
    match m s with
    | (s1, t1, Ok a) =>
        match k a s1 with
        | (s2, t2, r) => (s2, (t1 ++ t2)%list, r)
        end
    | (s1, t1, Raise e) => (s1, t1, Raise e)
    end.

Definition emit (e : event) : M unit := fun s => (s, [e], Ok tt).

Definition invoke (c : EC2.call) : M string :=
  fun s =>
    match respond s c with
    | (s', EC2.Returns id) => (s', [Call c (EC2.Returns id)], Ok id)
    | (s', EC2.Raises msg) =>
        (s', [Call c (EC2.Raises msg)], Raise (ProviderError msg))
    end.

Definition print (line : string) : M unit := emit (Printed line).

Notation "x <- m ;; k" := (bind m (fun x => k))
  (at level 61, m at next level, right associativity).
Notation "m ;;; k" := (bind m (fun _ => k))
  (at level 61, right associativity).

Definition create_vpc (cidr_block name : string) : M string :=
  emit (Enter (step_create_vpc cidr_block name)) ;;;
  vpc <- invoke (EC2.create_vpc cidr_block) ;;
  invoke (EC2.wait_until_available vpc) ;;;
  invoke (EC2.create_tags vpc "Name" name) ;;;
  print (check_mark ++ " Created VPC: " ++ vpc) ;;;
  ret vpc.

Definition create_internet_gateway (vpc_id : string) : M string :=
  emit (Enter (step_create_internet_gateway vpc_id)) ;;;
  igw <- invoke EC2.create_internet_gateway ;;
  invoke (EC2.attach_to_vpc igw vpc_id) ;;;
  print (check_mark ++ " Created and attached Internet Gateway: " ++ igw) ;;;
  ret igw.

Definition create_subnet (vpc_id cidr_block name az : string) : M string :=
  emit (Enter (step_create_subnet vpc_id cidr_block name az)) ;;;
  subnet <- invoke (EC2.create_subnet vpc_id cidr_block az) ;;
  invoke (EC2.create_tags subnet "Name" name) ;;;
  print (check_mark ++ " Created Subnet: " ++ subnet
         ++ " (" ++ name ++ ")") ;;;
  ret subnet.

Definition create_route_table (vpc_id subnet_id : string)
    (igw_id : option string) (name : string) : M string :=
  emit (Enter (step_create_route_table vpc_id subnet_id igw_id name)) ;;;
  table <- invoke (EC2.create_route_table vpc_id) ;;
  invoke (EC2.create_tags table "Name" name) ;;;
  invoke (EC2.associate_with_subnet table subnet_id) ;;;
  (match igw_id with
   | Some igw =>
       if truthy igw_id then
         invoke (EC2.create_route table "0.0.0.0/0" igw) ;;;
         print (check_mark ++ " Public Route added to IGW in " ++ name)
       else
         print (check_mark ++ " Created private Route Table: " ++ table)
   | None =>
       print (check_mark ++ " Created private Route Table: " ++ table)
   end) ;;;
  ret table.

(** [parser.parse_args()]: each occurrence is converted by the flag's
    type as it is met, a later occurrence of a flag overrides an earlier
    one, and the required flags are checked once the line is consumed. *)
Definition lookup (f : flag) (seen : list (flag * string)) : option string :=
  match find (fun '(g, _) => flag_eqb f g) seen with
  | Some (_, v) => Some v
  | None => None
  end.

Fixpoint convert_all (line : command_line) (seen : list (flag * string))
  : parser_error + list (flag * string) :=
  match line with
  | [] => inr seen
  | (f, v) :: rest =>
      match flag_type f v with
      | Ok v' => convert_all rest ((f, v') :: seen)
      | Raise e => inl (bad_argument f e)
      end
  end.

Definition parse_args (line : command_line) : parser_error + Namespace :=
  match convert_all line [] with
  | inl err => inl err
  | inr seen =>
      match lookup opt_vpc_cidr seen, lookup opt_vpc_name seen,
            lookup opt_public_subnet_cidr seen,
            lookup opt_private_subnet_cidr seen,
            lookup opt_availability_zone seen with
      | Some a, Some b, Some c, Some d, Some e =>
          inr {| vpc_cidr := a; vpc_name := b; public_subnet_cidr := c;
                 private_subnet_cidr := d; availability_zone := e |}
      | _, _, _, _, _ =>
          inl (missing_arguments
                 (filter (fun f => match lookup f seen with
                                   | None => true
                                   | Some _ => false
                                   end) declared_flags))
      end
  end.

(** The body of the [try] block. *)
Definition provision (args : Namespace) : M unit :=
  vpc_id <- create_vpc (vpc_cidr args) (vpc_name args) ;;
  igw_id <- create_internet_gateway vpc_id ;;
  public_subnet_id <-
    create_subnet vpc_id (public_subnet_cidr args) "PublicSubnet"
      (availability_zone args) ;;
  private_subnet_id <-
    create_subnet vpc_id (private_subnet_cidr args) "PrivateSubnet"
      (availability_zone args) ;;
  create_route_table vpc_id public_subnet_id (Some igw_id)
    "PublicRouteTable" ;;;
  create_route_table vpc_id private_subnet_id None "PrivateRouteTable" ;;;
  print (party_popper ++ " All resources created successfully!").

Definition str_exn (e : exn) : string :=
  match e with
  | ArgumentTypeError msg | ProviderError msg => msg
  | ValueError | AddressValueError | NetmaskValueError => ""
  end.

(** [main()]: the final client state, the trace, and how the process
    ends.  [boto3.resource("ec2")] is taken to succeed; it is recorded in
    the trace so that one can tell whether the client was built. *)
Definition main (line : command_line) (s : St)
  : St * list event * termination :=
  match parse_args line with
  | inl err => (s, [Usage err], SystemExit 2)
  | inr args =>
      match provision args s with
      | (s', t, Ok _) => (s', Resource "ec2" :: t, returns_normally)
      | (s', t, Raise e) =>
          (s', Resource "ec2" :: (t ++ [Printed (error_line (str_exn e))])%list,
           SystemExit 1)
      end
  end.

End Script.

Arguments ret {St A} a.
Arguments bind {St A B} m k.
Arguments emit {St} e.
Arguments print {St} line.
Arguments invoke {St} respond c.
Arguments create_vpc {St} respond cidr_block name.
Arguments create_internet_gateway {St} respond vpc_id.
Arguments create_subnet {St} respond vpc_id cidr_block name az.
Arguments create_route_table {St} respond vpc_id subnet_id igw_id name.
Arguments provision {St} respond args.
Arguments main {St} respond line s.

(** ** Test clients *)

Module Stub.

Definition digit (n : nat) : string :=
  String (ascii_of_nat (48 + n mod 10)) EmptyString.

Definition number (n : nat) : string :=
  if (n <? 10)%nat then digit n else digit (n / 10) ++ digit n.

Definition kind (c : EC2.call) : string :=
  match c with
  | EC2.create_vpc _ => "vpc-"
  | EC2.create_internet_gateway => "igw-"
  | EC2.create_subnet _ _ _ => "subnet-"
  | EC2.create_route_table _ => "rtb-"
  | _ => "none-"
  end.

(** The state counts the calls answered so far.  The client raises on
    call number [fail_at] and otherwise returns an id made of the kind of
    resource and the number of the call. *)
Definition respond (fail_at : option nat) (n : nat) (c : EC2.call)
  : nat * EC2.reply :=
  (S n,
   match fail_at with
   | Some k =>
       if (n =? k)%nat
       then EC2.Raises ("denied: " ++ EC2.method c)
       else EC2.Returns (kind c ++ number n)
   | None => EC2.Returns (kind c ++ number n)
   end).

(** A client that always succeeds and returns the empty string as the id
    of every object. *)
Definition respond_blank (n : nat) (c : EC2.call) : nat * EC2.reply :=
  (S n, EC2.Returns "").

Definition demo : command_line :=
  [(opt_vpc_cidr, "10.0.0.0/16"); (opt_vpc_name, "demo");
   (opt_public_subnet_cidr, "10.0.1.0/24");
   (opt_private_subnet_cidr, "10.0.2.0/24");
   (opt_availability_zone, "us-east-1a")].

(** The demo command line with an empty name and an empty zone. *)
Definition unnamed : command_line :=
  [(opt_vpc_cidr, "10.0.0.0/16"); (opt_vpc_name, "");
   (opt_public_subnet_cidr, "10.0.1.0/24");
   (opt_private_subnet_cidr, "10.0.2.0/24");
   (opt_availability_zone, "")].

(** The demo command line with an invalid public subnet. *)
Definition bad_public : command_line :=
  [(opt_vpc_cidr, "10.0.0.0/16"); (opt_vpc_name, "demo");
   (opt_public_subnet_cidr, "999.0.0.0/24");
   (opt_private_subnet_cidr, "10.0.2.0/24");
   (opt_availability_zone, "us-east-1a")].

(** The demo command line without [--vpc-name]. *)
Definition nameless : command_line :=
  [(opt_vpc_cidr, "10.0.0.0/16");
   (opt_public_subnet_cidr, "10.0.1.0/24");
   (opt_private_subnet_cidr, "10.0.2.0/24");
   (opt_availability_zone, "us-east-1a")].

(** The demo command line with a VPC address that has no prefix. *)
Definition prefixless : command_line :=
  [(opt_vpc_cidr, "10.0.0.0"); (opt_vpc_name, "demo");
   (opt_public_subnet_cidr, "10.0.1.0/24");
   (opt_private_subnet_cidr, "10.0.2.0/24");
   (opt_availability_zone, "us-east-1a")].

Definition run (fail_at : option nat) (line : command_line)
  : nat * list event * termination :=
  main (respond fail_at) line 0%nat.

Definition blank_run : nat * list event * termination :=
  main respond_blank demo 0%nat.

End Stub.

(** ** Observations on runs *)

Definition step_name (s : step) : string :=
  match s with
  | step_create_vpc _ _ => "create_vpc"
  | step_create_internet_gateway _ => "create_internet_gateway"
  | step_create_subnet _ _ _ _ => "create_subnet"
  | step_create_route_table _ _ _ _ => "create_route_table"
  end.

(** The step functions in the order [main] calls them. *)
Definition plan : list string :=
  ["create_vpc"; "create_internet_gateway"; "create_subnet"; "create_subnet";
   "create_route_table"; "create_route_table"].

(** How a computation over the client may end: without any failed call, or
    right after its first failed call, raising that call's exception. *)
Inductive finished {A : Type} : list event -> result A -> Prop :=
| finished_ok (t : list event) (a : A) :
    clean t -> finished t (Ok a)
| finished_raise (pre : list event) (c : EC2.call) (msg : string) :
    clean pre ->
    finished (pre ++ [Call c (EC2.Raises msg)])%list
             (Raise (ProviderError msg)).

Definition disciplined {St A : Type} (m : M St A) : Prop :=
  forall s, finished (snd (fst (m s))) (snd (m s)).

(** The client state reached by answering the calls [cs] in turn. *)
Definition replay {St : Type} (respond : St -> EC2.call -> St * EC2.reply)
    (cs : list EC2.call) (s : St) : St :=
  fold_left (fun s c => fst (respond s c)) cs s.

Definition cidr_flag (f : flag) : bool :=
  match f with
  | opt_vpc_cidr | opt_public_subnet_cidr | opt_private_subnet_cidr => true
  | opt_vpc_name | opt_availability_zone => false
  end.

(** The flag occurs on the command line. *)
Definition given (f : flag) (line : command_line) : bool :=
  existsb (fun '(g, _) => flag_eqb f g) line.

(** [sub in s] for strings. *)
Fixpoint occurs (sub s : string) : bool :=
  String.prefix sub s
  || match s with
     | EmptyString => false
     | String _ s' => occurs sub s'
     end.

(** The line a step prints when it completes, given the handle it made. *)
Definition success_line (s : step) (handle : string) : string :=
  match s with
  | step_create_vpc _ _ => check_mark ++ " Created VPC: " ++ handle
  | step_create_internet_gateway _ =>
      check_mark ++ " Created and attached Internet Gateway: " ++ handle
  | step_create_subnet _ _ name _ =>
      check_mark ++ " Created Subnet: " ++ handle ++ " (" ++ name ++ ")"
  | step_create_route_table _ _ igw_id name =>
      if truthy igw_id
      then check_mark ++ " Public Route added to IGW in " ++ name
      else check_mark ++ " Created private Route Table: " ++ handle
  end.

(** Each step entered whose first call returned, with the id returned:
    the handle the step creates. *)
Fixpoint step_handles (t : list event) : list (step * string) :=
  match t with
  | [] => []
  | Enter s :: t' =>
      match t' with
      | Call _ (EC2.Returns id) :: _ => (s, id) :: step_handles t'
      | _ => step_handles t'
      end
  | _ :: t' => step_handles t'
  end.

(** The ids returned by the calls that create a resource. *)
Fixpoint created (t : list event) : list string :=
  match t with
  | [] => []
  | Call (EC2.create_vpc _) (EC2.Returns id) :: t'
  | Call EC2.create_internet_gateway (EC2.Returns id) :: t'
  | Call (EC2.create_subnet _ _ _) (EC2.Returns id) :: t'
  | Call (EC2.create_route_table _) (EC2.Returns id) :: t' =>
      id :: created t'
  | _ :: t' => created t'
  end.

Definition trace_of {St : Type} (run : St * list event * termination)
  : list event := snd (fst run).

Definition exit_of {St : Type} (run : St * list event * termination)
  : termination := snd run.

(** Whether the success line of a step shows the handle the step made:
    it does, except for a route table that got a default route, whose line
    shows the table's name tag instead. *)
Definition shows_handle (st : step) (handle : string) : Prop :=
  match st with
  | step_create_route_table _ _ igw_id name =>
      if truthy igw_id
      then success_line st handle
           = check_mark ++ " Public Route added to IGW in " ++ name
      else occurs handle (success_line st handle) = true
  | _ => occurs handle (success_line st handle) = true
  end.

(** The first call of the trace, if any, comes after a step was entered. *)
Fixpoint first_call_in_step (t : list event) : bool :=
  match t with
  | [] => true
  | Enter _ :: _ => true
  | Call _ _ :: _ => false
  | _ :: t' => first_call_in_step t'
  end.

(** The part of a trace before, and after, its first failed call. *)
Fixpoint before_failure (t : list event) : list event :=
  match t with
  | [] => []
  | e :: t' => if is_failure e then [] else e :: before_failure t'
  end.

Fixpoint after_failure (t : list event) : list event :=
  match t with
  | [] => []
  | e :: t' => if is_failure e then t' else after_failure t'
  end.

(** The first failed call of a trace and the text of its exception. *)
Fixpoint failure_of (t : list event) : option (EC2.call * string) :=
  match t with
  | [] => None
  | Call c (EC2.Raises msg) :: _ => Some (c, msg)
  | _ :: t' => failure_of t'
  end.

(** What the script prints for the steps that completed before the one
    that failed: the success lines of all entered steps but the last. *)
Definition completed_lines (t : list event) : list string :=
  map (fun '(st, handle) => success_line st handle)
      (firstn (length (steps_of t) - 1) (step_handles t)).

(** The value of [--vpc-cidr] that [parse_args] retains. *)
Definition vpc_cidr_of (line : command_line) : string :=
  match parse_args line with
  | inr args => vpc_cidr args
  | inl _ => ""
  end.

(** Every run of [main] ends in one of three ways: a usage error, a run
    without failed call, or a run cut short by its first failed call. *)
Inductive run_shape {St : Type} (line : command_line) (s : St)
  : St * list event * termination -> Prop :=
| run_usage (err : parser_error) :
    parse_args line = inl err ->
    run_shape line s (s, [Usage err], SystemExit 2)
| run_success (args : Namespace) (s' : St) (body : list event) :
    parse_args line = inr args ->
    clean body ->
    run_shape line s (s', Resource "ec2" :: body, returns_normally)
| run_failure (args : Namespace) (s' : St) (pre : list event)
    (c : EC2.call) (msg : string) :
    parse_args line = inr args ->
    clean pre ->
    run_shape line s
      (s',
       (Resource "ec2" :: pre
        ++ [Call c (EC2.Raises msg); Printed (error_line msg)])%list,
       SystemExit 1).

(** ** Further observations *)

(** A zero followed by at least one more character. *)
Definition leading_zero (o : string) : bool :=
  match o with
  | String c (String _ _) => Ascii.eqb c "0"
  | _ => false
  end.

(** An octet written the way [_parse_octet] wants it: a decimal numeral of
    at most three digits, without leading zero, of value at most 255. *)
Definition canonical_octet (o : string) : Prop :=
  octet_text o /\ (String.length o <= 3)%nat /\ leading_zero o = false.

(** The value given to a flag by its last occurrence on the line. *)
Definition last_value (f : flag) (line : command_line) : option string :=
  lookup f (rev line).

(** Every CIDR value on the line passes the validator. *)
Definition cidrs_valid (line : command_line) : Prop :=
  forall f v, In (f, v) line -> cidr_flag f = true -> validate_cidr v = Ok v.

(** The handles a call hands to the client: ids that the client must have
    returned before. *)
Definition uses (c : EC2.call) : list string :=
  match c with
  | EC2.create_vpc _ | EC2.create_internet_gateway => []
  | EC2.wait_until_available vpc => [vpc]
  | EC2.create_tags resource _ _ => [resource]
  | EC2.attach_to_vpc igw vpc => [igw; vpc]
  | EC2.create_subnet vpc _ _ => [vpc]
  | EC2.create_route_table vpc => [vpc]
  | EC2.associate_with_subnet table subnet => [table; subnet]
  | EC2.create_route table _ gw => [table; gw]
  | EC2.detach_from_vpc igw vpc => [igw; vpc]
  | EC2.delete resource => [resource]
  end.

Definition success_banner : string :=
  party_popper ++ " All resources created successfully!".

(** The value of [--vpc-name] that [parse_args] retains. *)
Definition vpc_name_of (line : command_line) : string :=
  match parse_args line with
  | inr args => vpc_name args
  | inl _ => ""
  end.

(** The client calls of each step function, in order, given the id [h]
    that the first of them returns. *)
Definition vpc_script (cidr_block name h : string) : list EC2.call :=
  [EC2.create_vpc cidr_block;
   EC2.wait_until_available h;
   EC2.create_tags h "Name" name].

Definition gateway_script (vpc_id h : string) : list EC2.call :=
  [EC2.create_internet_gateway; EC2.attach_to_vpc h vpc_id].

Definition subnet_script (vpc_id cidr_block name az h : string)
  : list EC2.call :=
  [EC2.create_subnet vpc_id cidr_block az; EC2.create_tags h "Name" name].

Definition route_table_script (vpc_id subnet_id : string)
    (igw_id : option string) (name h : string) : list EC2.call :=
  ([EC2.create_route_table vpc_id;
    EC2.create_tags h "Name" name;
    EC2.associate_with_subnet h subnet_id]
   ++ match igw_id with
      | Some igw =>
          if truthy igw_id then [EC2.create_route h "0.0.0.0/0" igw] else []
      | None => []
      end)%list.

(** What a step function leaves behind.  When it returns [h]: all the calls
    of its script were made, none failed, [h] is the id its first call
    returned, and its success line is the one thing printed.  When it
    raises: the calls made are the script up to and including call number
    [k], which is the one that failed and whose exception is raised, and
    nothing is printed. *)
Definition step_outcome (script : string -> list EC2.call)
    (line : string -> string) (t : list event) (r : result string) : Prop :=
  match r with
  | Ok h =>
      calls_of t = script h /\ clean t /\
      hd_error (created t) = Some h /\
      stdout_of t = [line h]
  | Raise e =>
      stdout_of t = [] /\
      exists h k msg,
        (k < length (script h))%nat /\
        calls_of t = firstn (S k) (script h) /\
        failure_of t
        = Some (nth k (script h) EC2.create_internet_gateway, msg) /\
        e = ProviderError msg
  end.

Definition is_create_route (c : EC2.call) : bool :=
  match c with
  | EC2.create_route _ _ _ => true
  | _ => false
  end.

(** What holds of a call [c] made after the events [pre] in a run: every
    handle it passes was returned earlier by a creating call; a tag is a
    [Name] tag whose value is the VPC name of the command line or one of
    the four fixed names; a route is the default route, made in the fifth
    step, to a gateway with a non-empty id that [create_internet_gateway]
    returned. *)
Definition call_in_order (line : command_line) (pre : list event)
    (c : EC2.call) : Prop :=
  Forall (fun h => In h (created pre)) (uses c) /\
  match c with
  | EC2.create_tags _ key value =>
      key = "Name" /\
      In value [vpc_name_of line; "PublicSubnet"; "PrivateSubnet";
                "PublicRouteTable"; "PrivateRouteTable"]
  | EC2.create_route _ dest gw =>
      dest = "0.0.0.0/0" /\ gw <> "" /\
      length (steps_of pre) = 5%nat /\
      In (Call EC2.create_internet_gateway (EC2.Returns gw)) pre
  | _ => True
  end.

(** * Properties *)

(** ** The validator on sample inputs *)

Example validate_cidr_ex1 : validate_cidr "10.0.0.0/16" = Ok "10.0.0.0/16".
Proof. reflexivity. Qed.

Example validate_cidr_ex2 :
  validate_cidr "999.0.0.0/24"
  = Raise (ArgumentTypeError "Invalid CIDR: 999.0.0.0/24").
Proof. reflexivity. Qed.

Example validate_cidr_ex3 :
  validate_cidr "10.0.1.1/24"
  = Raise (ArgumentTypeError "Invalid CIDR: 10.0.1.1/24").
Proof. reflexivity. Qed.

Example validate_cidr_ex4 : validate_cidr "10.0.0.0" = Ok "10.0.0.0".
Proof. reflexivity. Qed.

Example validate_cidr_ex5 :
  validate_cidr "10.0.0.0/255.255.0.0" = Ok "10.0.0.0/255.255.0.0".
Proof. reflexivity. Qed.

Example validate_cidr_ex6 :
  validate_cidr "10.0.0.0/0.0.255.255" = Ok "10.0.0.0/0.0.255.255".
Proof. reflexivity. Qed.

Example validate_cidr_ex7 :
  validate_cidr "10.0.0.0/33"
  = Raise (ArgumentTypeError "Invalid CIDR: 10.0.0.0/33").
Proof. reflexivity. Qed.

Example validate_cidr_ex8 :
  validate_cidr "10.0.0.0/255.0.255.0"
  = Raise (ArgumentTypeError "Invalid CIDR: 10.0.0.0/255.0.255.0").
Proof. reflexivity. Qed.

(** ** Facts about the string methods *)

Section StringFacts.

Import PyStr.

Lemma split_not_nil (c : ascii) (s : string) : split c s <> [].
Proof.
  destruct s as [|a s]; simpl; [discriminate|].
  destruct (Ascii.eqb a c); [discriminate|].
  destruct (split c s); discriminate.
Qed.

Lemma join_cons (sep p : string) (ps : list string) :
  ps <> [] -> join sep (p :: ps) = p ++ sep ++ join sep ps.
Proof. destruct ps; [congruence | reflexivity]. Qed.

Lemma join_split (c : ascii) (s : string) :
  join (String c EmptyString) (split c s) = s.
Proof.
  induction s as [|a s IH]; simpl; [reflexivity|].
  destruct (Ascii.eqb_spec a c) as [->|Hne].
  - rewrite join_cons by apply split_not_nil.
    simpl. now rewrite IH.
  - pose proof (split_not_nil c s) as Hnil.
    destruct (split c s) as [|p ps]; [congruence|].
    destruct ps as [|p' ps].
    + simpl in *. now rewrite IH.
    + rewrite join_cons in IH by discriminate.
      rewrite join_cons by discriminate.
      rewrite <- IH. reflexivity.
Qed.

Lemma contains_app (c : ascii) (a b : string) :
  contains c (a ++ b) = contains c a || contains c b.
Proof.
  induction a as [|x a IH]; simpl; [reflexivity|].
  now rewrite IH, orb_assoc.
Qed.

Lemma split_sepfree (c : ascii) (p : string) :
  contains c p = false -> split c p = [p].
Proof.
  induction p as [|x p IH]; simpl; [reflexivity|].
  intros H. apply orb_false_iff in H as [Hx Hp].
  rewrite Hx, (IH Hp). reflexivity.
Qed.

Lemma split_app_sep (c : ascii) (p s : string) :
  contains c p = false ->
  split c (p ++ String c s) = p :: split c s.
Proof.
  induction p as [|x p IH]; simpl.
  - intros _. now rewrite Ascii.eqb_refl.
  - intros H. apply orb_false_iff in H as [Hx Hp].
    rewrite Hx, (IH Hp). reflexivity.
Qed.

Lemma all_digits_sepfree (c : ascii) (s : string) :
  is_ascii_digit c = false -> all_digits s = true -> contains c s = false.
Proof.
  intros Hc. induction s as [|x s IH]; simpl; [reflexivity|].
  intros H. apply andb_true_iff in H as [Hx Hs].
  rewrite (IH Hs), orb_false_r.
  destruct (Ascii.eqb_spec x c) as [->|]; [congruence | reflexivity].
Qed.

Lemma isdigit_all_digits (s : string) :
  isascii_and_isdigit s = true -> all_digits s = true.
Proof. destruct s; [discriminate | auto]. Qed.

Lemma digit_value_nonneg (c : ascii) :
  is_ascii_digit c = true -> 0 <= digit_value c.
Proof.
  unfold is_ascii_digit, digit_value. intros H.
  apply andb_true_iff in H as [H _]. apply Nat.leb_le in H. lia.
Qed.

Lemma int10_from_nonneg (s : string) :
  forall acc, all_digits s = true -> 0 <= acc -> 0 <= int10_from acc s.
Proof.
  induction s as [|x s IH]; simpl; intros acc H Hacc; [assumption|].
  apply andb_true_iff in H as [Hx Hs].
  apply IH; [assumption|].
  pose proof (digit_value_nonneg x Hx). lia.
Qed.

Lemma int10_nonneg (s : string) :
  isascii_and_isdigit s = true -> 0 <= int10 s.
Proof.
  intros H. apply int10_from_nonneg; [now apply isdigit_all_digits | lia].
Qed.

Lemma contains_app_sep (c : ascii) (a b : string) :
  contains c (a ++ String c b) = true.
Proof.
  rewrite contains_app. simpl. rewrite Ascii.eqb_refl.
  now rewrite orb_true_r.
Qed.

End StringFacts.

(** ** Inversion of the parser *)

Section ParserFacts.

Import PyStr ipaddress.

Ltac case_if :=
  match goal with
  | H : context [if ?b then _ else _] |- _ =>
      let E := fresh "E" in destruct b eqn:E; try discriminate H
  end.

Lemma parse_octet_ok (o : string) (b : Z) :
  _parse_octet o = Ok b -> octet_text o /\ b = int10 o.
Proof.
  unfold _parse_octet, octet_text, decimal. intros H.
  repeat case_if.
  apply negb_false_iff in E0. apply Z.ltb_ge in E3.
  inversion H; subst b.
  pose proof (int10_nonneg o E0). repeat split; auto; lia.
Qed.

Lemma parse_octet_raises (o : string) (e : exn) :
  _parse_octet o = Raise e -> e = ValueError.
Proof.
  unfold _parse_octet. intros H.
  repeat case_if; inversion H; reflexivity.
Qed.

Lemma parse_octets_ok (os : list string) :
  forall bs, parse_octets os = Ok bs ->
             Forall octet_text os /\ bs = map int10 os.
Proof.
  induction os as [|o os IH]; simpl; intros bs H.
  - inversion H. split; constructor.
  - destruct (_parse_octet o) as [b|e] eqn:Ho; simpl in H; [|discriminate].
    destruct (parse_octets os) as [bs'|e] eqn:Hos; simpl in H; [|discriminate].
    inversion H; subst bs.
    apply parse_octet_ok in Ho as [Ho ->].
    destruct (IH _ eq_refl) as [Hall ->].
    split; [constructor; assumption | reflexivity].
Qed.

Lemma parse_octets_raises (os : list string) (e : exn) :
  parse_octets os = Raise e -> e = ValueError.
Proof.
  induction os as [|o os IH]; simpl; intros H; [discriminate|].
  destruct (_parse_octet o) as [b|e'] eqn:Ho; simpl in H.
  - destruct (parse_octets os) as [bs'|e'] eqn:Hos; simpl in H;
      [discriminate|].
    inversion H; subst e'. now apply IH.
  - inversion H; subst e'. now apply parse_octet_raises in Ho.
Qed.

Lemma ip_int_from_string_ok (q : string) (ip : Z) :
  _ip_int_from_string q = Ok ip ->
  exists o1 o2 o3 o4,
    q = join "." [o1; o2; o3; o4] /\
    Forall octet_text [o1; o2; o3; o4] /\
    ip = address_value [o1; o2; o3; o4].
Proof.
  unfold _ip_int_from_string. intros H.
  repeat case_if.
  apply negb_false_iff, Nat.eqb_eq in E0.
  pose proof (join_split "." q) as Hjoin.
  destruct (split "." q) as [|o1 [|o2 [|o3 [|o4 [|o5 os]]]]];
    try discriminate E0.
  destruct (parse_octets [o1; o2; o3; o4]) as [bs|e] eqn:Hp.
  - inversion H; subst ip.
    apply parse_octets_ok in Hp as [Hall ->].
    exists o1, o2, o3, o4. repeat split; auto.
  - destruct (isinstance_ValueError e); discriminate.
Qed.

Lemma ip_int_from_string_raises (q : string) (e : exn) :
  _ip_int_from_string q = Raise e -> e = AddressValueError.
Proof.
  unfold _ip_int_from_string. intros H.
  destruct (String.eqb q ""); [now inversion H|].
  destruct (negb _); [now inversion H|].
  destruct (parse_octets _) as [bs|e'] eqn:Hp; [discriminate|].
  apply parse_octets_raises in Hp; subst e'.
  simpl in H. now inversion H.
Qed.

Lemma IPv4Address_ok (a : string) (ip : Z) :
  IPv4Address a = Ok ip -> _ip_int_from_string a = Ok ip.
Proof. unfold IPv4Address. now destruct (contains "/" a). Qed.

Lemma IPv4Address_raises (a : string) (e : exn) :
  IPv4Address a = Raise e -> e = AddressValueError.
Proof.
  unfold IPv4Address.
  destruct (contains "/" a); intros H;
    [now inversion H | now apply ip_int_from_string_raises in H].
Qed.

Lemma prefix_from_ip_int_raises (x : Z) (e : exn) :
  _prefix_from_ip_int x = Raise e -> e = ValueError.
Proof.
  unfold _prefix_from_ip_int. destruct (negb _); intros H; now inversion H.
Qed.

Lemma prefix_from_prefix_string_ok (p : string) (n : Z) :
  _prefix_from_prefix_string p = Ok n -> prefix_text p /\ n = int10 p.
Proof.
  unfold _prefix_from_prefix_string, _report_invalid_netmask, prefix_text,
    decimal, _max_prefixlen, py_int.
  intros H.
  destruct (negb (isascii_and_isdigit p)) eqn:E; [discriminate|].
  destruct (int_max_str_digits <? len p); [discriminate|].
  destruct (negb _) eqn:E0 in H; [discriminate|].
  apply negb_false_iff in E, E0. apply andb_true_iff in E0 as [H0 H1].
  apply Z.leb_le in H0, H1. inversion H. auto.
Qed.

Lemma prefix_from_prefix_string_raises (p : string) (e : exn) :
  _prefix_from_prefix_string p = Raise e -> e = NetmaskValueError.
Proof.
  unfold _prefix_from_prefix_string, _report_invalid_netmask, py_int.
  destruct (negb _); [now inversion 1|].
  destruct (int_max_str_digits <? len p); [now inversion 1|].
  destruct (negb _); [now inversion 1 | discriminate].
Qed.

Lemma prefix_from_prefix_string_text (p : string) :
  prefix_text p -> len p <= int_max_str_digits ->
  _prefix_from_prefix_string p = Ok (int10 p).
Proof.
  unfold _prefix_from_prefix_string, prefix_text, decimal, _max_prefixlen,
    py_int.
  intros [Hd [H0 H1]] Hlen. rewrite Hd. simpl.
  replace (int_max_str_digits <? len p) with false
    by (symmetry; now apply Z.ltb_ge).
  apply Z.leb_le in H0, H1. now rewrite H0, H1.
Qed.

Lemma prefix_from_ip_string_ok (m : string) (n : Z) :
  _prefix_from_ip_string m = Ok n -> dotted_quad m.
Proof.
  unfold _prefix_from_ip_string. intros H.
  destruct (_ip_int_from_string m) as [x|e] eqn:Hm.
  - apply ip_int_from_string_ok in Hm as (o1 & o2 & o3 & o4 & Hq & Hall & _).
    exists o1, o2, o3, o4. auto.
  - apply ip_int_from_string_raises in Hm; subst e. discriminate.
Qed.

Lemma prefix_from_ip_string_raises (m : string) (e : exn) :
  _prefix_from_ip_string m = Raise e -> e = NetmaskValueError.
Proof.
  unfold _prefix_from_ip_string, _report_invalid_netmask. intros H.
  destruct (_ip_int_from_string m) as [x|e1] eqn:Hm.
  - destruct (_prefix_from_ip_int x) as [p|e1] eqn:H1; [discriminate|].
    apply prefix_from_ip_int_raises in H1; subst e1. simpl in H.
    destruct (_prefix_from_ip_int (Z.lxor x _ALL_ONES)) as [p|e2] eqn:H2;
      [discriminate|].
    apply prefix_from_ip_int_raises in H2; subst e2. now inversion H.
  - apply ip_int_from_string_raises in Hm; subst e1. now inversion H.
Qed.

Lemma make_netmask_str_ok (m : string) (nm pl : Z) :
  _make_netmask (MaskStr m) = Ok (nm, pl) ->
  nm = _ip_int_from_prefix pl /\
  ((prefix_text m /\ pl = int10 m) \/ dotted_quad m).
Proof.
  unfold _make_netmask. intros H.
  destruct (_prefix_from_prefix_string m) as [p|e] eqn:Hp; simpl in H.
  - inversion H; subst. apply prefix_from_prefix_string_ok in Hp. auto.
  - apply prefix_from_prefix_string_raises in Hp; subst e. simpl in H.
    destruct (_prefix_from_ip_string m) as [p|e] eqn:Hq; simpl in H;
      [|discriminate].
    inversion H; subst. apply prefix_from_ip_string_ok in Hq. auto.
Qed.

Lemma make_netmask_raises (m : mask_arg) (e : exn) :
  _make_netmask m = Raise e -> e = NetmaskValueError.
Proof.
  unfold _make_netmask, _report_invalid_netmask. intros H.
  destruct m as [n|s].
  - destruct (negb _); simpl in H; [now inversion H | discriminate].
  - destruct (_prefix_from_prefix_string s) as [p|e1] eqn:Hp; simpl in H;
      [discriminate|].
    apply prefix_from_prefix_string_raises in Hp; subst e1. simpl in H.
    destruct (_prefix_from_ip_string s) as [p|e1] eqn:Hq; simpl in H;
      [discriminate|].
    inversion H; subst e1. now apply prefix_from_ip_string_raises in Hq.
Qed.

Lemma split_addr_prefix_ok (s a : string) (m : mask_arg) :
  _split_addr_prefix s = Ok (a, m) ->
  (s = a /\ m = MaskInt 32) \/ (exists t, s = a ++ "/" ++ t /\ m = MaskStr t).
Proof.
  unfold _split_addr_prefix, _split_optional_netmask. intros H.
  pose proof (join_split "/" s) as Hjoin.
  destruct (split "/" s) as [|x [|y [|z l]]]; simpl in H; try discriminate.
  - inversion H; subst. left. auto.
  - inversion H; subst. right. exists y. auto.
Qed.

Lemma split_addr_prefix_raises (s : string) (e : exn) :
  _split_addr_prefix s = Raise e -> isinstance_ValueError e = true.
Proof.
  unfold _split_addr_prefix, _split_optional_netmask. intros H.
  destruct (split "/" s) as [|x [|y [|z l]]]; simpl in H;
    inversion H; reflexivity.
Qed.

Lemma split_addr_prefix_cidr (q p : string) :
  contains "/" q = false -> contains "/" p = false ->
  _split_addr_prefix (q ++ "/" ++ p) = Ok (q, MaskStr p).
Proof.
  intros Hq Hp. unfold _split_addr_prefix, _split_optional_netmask.
  change (q ++ "/" ++ p) with (q ++ String "/" p).
  rewrite (split_app_sep "/" q p Hq), (split_sepfree "/" p Hp).
  reflexivity.
Qed.

End ParserFacts.

(** ** What [IPv4Network] accepts *)

Section NetworkFacts.

Import PyStr ipaddress.

Lemma IPv4Network_ok (s : string) (net : IPv4Network_obj) :
  IPv4Network s true = Ok net ->
  exists a m ip nm pl,
    _split_addr_prefix s = Ok (a, m) /\
    IPv4Address a = Ok ip /\
    _make_netmask m = Ok (nm, pl) /\
    Z.land ip nm = ip.
Proof.
  unfold IPv4Network. intros H.
  destruct (_split_addr_prefix s) as [[a m]|e] eqn:Hs; simpl in H;
    [|discriminate].
  destruct (IPv4Address a) as [ip|e] eqn:Ha; simpl in H; [|discriminate].
  destruct (_make_netmask m) as [[nm pl]|e] eqn:Hm; simpl in H;
    [|discriminate].
  destruct (Z.land ip nm =? ip) eqn:Hland; simpl in H; [|discriminate].
  apply Z.eqb_eq in Hland.
  exists a, m, ip, nm, pl. auto.
Qed.

Lemma IPv4Network_raises (s : string) (strict : bool) (e : exn) :
  IPv4Network s strict = Raise e -> isinstance_ValueError e = true.
Proof.
  unfold IPv4Network. intros H.
  destruct (_split_addr_prefix s) as [[a m]|e1] eqn:Hs; simpl in H.
  - destruct (IPv4Address a) as [ip|e1] eqn:Ha; simpl in H.
    + destruct (_make_netmask m) as [[nm pl]|e1] eqn:Hm; simpl in H.
      * destruct (negb _); [destruct strict|]; inversion H; reflexivity.
      * inversion H; subst e1.
        now apply make_netmask_raises in Hm; subst e.
    + inversion H; subst e1. now apply IPv4Address_raises in Ha; subst e.
  - inversion H; subst e1. now apply split_addr_prefix_raises in Hs.
Qed.

(** The validator either hands its argument back or raises the
    argument error naming it. *)
Lemma validate_cidr_cases (s : string) :
  validate_cidr s = Ok s \/ validate_cidr s = Raise (invalid_cidr s).
Proof.
  unfold validate_cidr, invalid_cidr.
  destruct (IPv4Network s true) as [net|e] eqn:H; [now left|].
  apply IPv4Network_raises in H. rewrite H. now right.
Qed.

Lemma validate_cidr_ok_network (s r : string) :
  validate_cidr s = Ok r ->
  exists net, IPv4Network s true = Ok net.
Proof.
  unfold validate_cidr.
  destruct (IPv4Network s true) as [net|e]; [eauto|].
  destruct (isinstance_ValueError e); discriminate.
Qed.

Lemma validate_cidr_ok_form (s r : string) :
  validate_cidr s = Ok r -> network_form s.
Proof.
  intros H. apply validate_cidr_ok_network in H as [net H].
  apply IPv4Network_ok in H as (a & m & ip & nm & pl & Hs & Ha & Hm & _).
  apply IPv4Address_ok, ip_int_from_string_ok in Ha
    as (o1 & o2 & o3 & o4 & Hq & Hall & _).
  assert (Hquad : dotted_quad a) by (exists o1, o2, o3, o4; auto).
  apply split_addr_prefix_ok in Hs as [[-> ->] | (t & -> & ->)].
  - now left.
  - apply make_netmask_str_ok in Hm as [_ [[Hp _] | Hd]].
    + right; left. exists a, t. auto.
    + right; right. exists a, t. auto.
Qed.

Lemma octet_text_sepfree (c : ascii) (o : string) :
  is_ascii_digit c = false -> decimal o -> contains c o = false.
Proof.
  intros Hc Hd. apply all_digits_sepfree; [assumption|].
  now apply isdigit_all_digits.
Qed.

Lemma contains_join (c : ascii) (sep : string) (ps : list string) :
  contains c sep = false ->
  Forall (fun p => contains c p = false) ps ->
  contains c (join sep ps) = false.
Proof.
  intros Hsep. induction 1 as [|p ps Hp Hps IH]; [reflexivity|].
  destruct ps as [|p' ps]; [exact Hp|].
  rewrite join_cons by discriminate.
  now rewrite !contains_app, Hp, Hsep, IH.
Qed.

Lemma quad_no_slash (o1 o2 o3 o4 : string) :
  Forall decimal [o1; o2; o3; o4] ->
  contains "/" (join "." [o1; o2; o3; o4]) = false.
Proof.
  intros H. apply contains_join; [reflexivity|].
  eapply Forall_impl; [|exact H].
  intros o Ho. now apply octet_text_sepfree.
Qed.

Lemma split_quad (o1 o2 o3 o4 : string) :
  Forall decimal [o1; o2; o3; o4] ->
  split "." (join "." [o1; o2; o3; o4]) = [o1; o2; o3; o4].
Proof.
  intros H.
  repeat match goal with
         | H : Forall _ (_ :: _) |- _ => inversion H; clear H; subst
         end.
  cbn [join append].
  rewrite !split_app_sep by (apply octet_text_sepfree; auto; reflexivity).
  rewrite split_sepfree by (apply octet_text_sepfree; auto; reflexivity).
  reflexivity.
Qed.

Lemma ip_int_from_string_quad (o1 o2 o3 o4 : string) (ip : Z) :
  Forall decimal [o1; o2; o3; o4] ->
  _ip_int_from_string (join "." [o1; o2; o3; o4]) = Ok ip ->
  ip = address_value [o1; o2; o3; o4].
Proof.
  intros Hd. unfold _ip_int_from_string.
  rewrite (split_quad o1 o2 o3 o4 Hd).
  destruct (String.eqb _ ""); [discriminate|].
  cbn [length Nat.eqb negb].
  destruct (parse_octets [o1; o2; o3; o4]) as [bs|e] eqn:Hp.
  - apply parse_octets_ok in Hp as [_ ->]. now inversion 1.
  - destruct (isinstance_ValueError e); discriminate.
Qed.

(** An address kept unchanged by the netmask of prefix length [n] has no
    bit set among its low [32 - n] bits. *)
Lemma netmask_keeps_no_host_bits (ip n : Z) :
  0 <= n <= 32 ->
  Z.land ip (_ip_int_from_prefix n) = ip ->
  ip mod 2 ^ (32 - n) = 0.
Proof.
  intros Hn Hland. apply Z.bits_inj'. intros i Hi.
  rewrite Z.bits_0.
  destruct (Z.lt_ge_cases i (32 - n)) as [Hlow|Hhigh].
  - rewrite Z.mod_pow2_bits_low by lia.
    rewrite <- Hland, Z.land_spec.
    unfold _ip_int_from_prefix.
    rewrite Z.lxor_spec, Z.shiftr_spec by lia.
    change _ALL_ONES with (Z.ones 32).
    rewrite !Z.ones_spec_low by lia.
    apply andb_false_r.
  - apply Z.mod_pow2_bits_high. lia.
Qed.

End NetworkFacts.

(** ** The claims about [validate_cidr] *)

(** C1, as stated, fails: a bare address without any prefix is not of the
    form a.b.c.d/n, yet [validate_cidr] returns it ([IPv4Network] then takes
    the prefix length to be 32). *)
Lemma validate_cidr_accepts_bare_address :
  ~ cidr_form "10.0.0.0" /\ validate_cidr "10.0.0.0" = Ok "10.0.0.0".
Proof.
  split; [|reflexivity].
  intros (q & p & Hs & _).
  assert (H : PyStr.contains "/" "10.0.0.0" = true)
    by (rewrite Hs; apply contains_app_sep).
  discriminate H.
Qed.

(** C1, amended: every string that is neither a bare dotted quad a.b.c.d,
    nor a.b.c.d/n with n in [0,32], nor a.b.c.d/e.f.g.h (a dotted-quad
    mask), all octets in [0,255], makes [validate_cidr] raise the argument
    error "Invalid CIDR: <input>". *)
Theorem validate_cidr_rejects_malformed (s : string) :
  ~ network_form s -> validate_cidr s = Raise (invalid_cidr s).
Proof.
  intros Hform.
  destruct (validate_cidr_cases s) as [Hok|Herr]; [|assumption].
  exfalso. apply Hform. eapply validate_cidr_ok_form; eassumption.
Qed.

Lemma no_dot_not_quad (s : string) :
  PyStr.contains "." s = false -> ~ dotted_quad s.
Proof.
  intros Hc (o1 & o2 & o3 & o4 & Hs & _).
  rewrite Hs in Hc.
  change (PyStr.join "." [o1; o2; o3; o4])
    with (o1 ++ String "." (PyStr.join "." [o2; o3; o4])) in Hc.
  now rewrite contains_app_sep in Hc.
Qed.

Lemma no_dot_not_network_form (s : string) :
  PyStr.contains "." s = false -> ~ network_form s.
Proof.
  intros Hc [Hq | [(q & p & Hs & Hq & _) | (q & m & Hs & Hq & _)]].
  - now apply (no_dot_not_quad s).
  - apply (no_dot_not_quad q); [|assumption].
    rewrite Hs, contains_app in Hc. now apply orb_false_iff in Hc.
  - apply (no_dot_not_quad q); [|assumption].
    rewrite Hs, contains_app in Hc. now apply orb_false_iff in Hc.
Qed.

Lemma validate_cidr_rejects_malformed_witness :
  ~ network_form "10/8" /\
  validate_cidr "10/8" = Raise (invalid_cidr "10/8").
Proof.
  assert (H : ~ network_form "10/8")
    by (apply no_dot_not_network_form; reflexivity).
  split; [exact H | exact (validate_cidr_rejects_malformed "10/8" H)].
Defined.

(** C9: validation is idempotent: a string that [validate_cidr] returns is
    accepted again and returned unchanged. *)
Theorem validate_cidr_idempotent (s r : string) :
  validate_cidr s = Ok r -> validate_cidr r = Ok r.
Proof.
  intros H.
  destruct (validate_cidr_cases s) as [Hok|Herr]; [|congruence].
  assert (r = s) by congruence. subst r. assumption.
Qed.

Lemma validate_cidr_idempotent_witness :
  validate_cidr "10.0.1.0/24" = Ok "10.0.1.0/24" /\
  validate_cidr "10.0.1.0/24" = Ok "10.0.1.0/24".
Proof.
  split; [reflexivity|].
  apply (validate_cidr_idempotent "10.0.1.0/24" "10.0.1.0/24"). reflexivity.
Defined.

(** C10: a string a.b.c.d/n of well-formed shape (octets in [0,255], n in
    [0,32]) whose address has a bit set among the low 32 - n host bits is
    rejected with the argument error: the network is parsed in strict
    mode. *)
Theorem validate_cidr_rejects_host_bits (o1 o2 o3 o4 p : string) :
  Forall octet_text [o1; o2; o3; o4] ->
  prefix_text p ->
  address_value [o1; o2; o3; o4] mod 2 ^ (32 - PyStr.int10 p) <> 0 ->
  let s := PyStr.join "." [o1; o2; o3; o4] ++ "/" ++ p in
  validate_cidr s = Raise (invalid_cidr s).
Proof.
  intros Hoct Hp Hbits s.
  assert (Hdec : Forall decimal [o1; o2; o3; o4])
    by (eapply Forall_impl; [|exact Hoct]; intros o [Hd _]; exact Hd).
  destruct (validate_cidr_cases s) as [Hok|Herr]; [|assumption].
  exfalso. apply Hbits.
  apply validate_cidr_ok_network in Hok as [net Hnet].
  apply IPv4Network_ok in Hnet as (a & m & ip & nm & pl & Hs & Ha & Hm & Hland).
  unfold s in Hs.
  rewrite split_addr_prefix_cidr in Hs;
    [| now apply quad_no_slash
     | apply octet_text_sepfree; [reflexivity | apply Hp] ].
  inversion Hs; subst a m. clear Hs.
  apply IPv4Address_ok, ip_int_from_string_quad in Ha; [|assumption].
  apply make_netmask_str_ok in Hm as [-> [[_ ->] | Hquad]].
  - subst ip. apply netmask_keeps_no_host_bits; [apply Hp | assumption].
  - exfalso. apply (no_dot_not_quad p); [|assumption].
    apply octet_text_sepfree; [reflexivity | apply Hp].
Qed.

Lemma validate_cidr_rejects_host_bits_witness :
  validate_cidr "10.0.1.1/24" = Raise (invalid_cidr "10.0.1.1/24").
Proof.
  apply (validate_cidr_rejects_host_bits "10" "0" "1" "1" "24").
  - repeat constructor; vm_compute; congruence.
  - repeat constructor; vm_compute; congruence.
  - vm_compute. congruence.
Defined.

(** ** Traces with a single failed call *)

Section TraceFacts.

Lemma clean_app (a b : list event) :
  clean a -> clean b -> clean (a ++ b).
Proof. intros Ha Hb. apply Forall_app. now split. Qed.

Lemma clean_no_failure (t pre post : list event) (c : EC2.call)
    (msg : string) :
  clean t -> t <> (pre ++ Call c (EC2.Raises msg) :: post)%list.
Proof.
  intros Hclean ->. apply Forall_app in Hclean as [_ H].
  inversion H as [|? ? Hx _]. discriminate Hx.
Qed.

(** In a trace whose only failed call is followed by [tail], a failed
    call, wherever it is looked for, is that one. *)
Lemma failure_unique (pre0 pre post tail : list event)
    (c0 c : EC2.call) (msg0 msg : string) :
  clean pre0 -> clean tail ->
  (pre0 ++ Call c0 (EC2.Raises msg0) :: tail
   = pre ++ Call c (EC2.Raises msg) :: post)%list ->
  pre = pre0 /\ c = c0 /\ msg = msg0 /\ post = tail.
Proof.
  intros Hpre0 Htail. revert pre.
  induction Hpre0 as [|x pre0 Hx Hpre0 IH]; intros pre H.
  - destruct pre as [|y pre]; simpl in H.
    + inversion H. auto.
    + inversion H; subst. exfalso.
      eapply clean_no_failure; [exact Htail | reflexivity].
  - destruct pre as [|y pre]; simpl in H.
    + inversion H; subst. discriminate Hx.
    + inversion H; subst.
      destruct (IH pre H2) as (-> & -> & -> & ->). auto.
Qed.

Lemma steps_of_app (a b : list event) :
  steps_of (a ++ b) = (steps_of a ++ steps_of b)%list.
Proof.
  induction a as [|[] a IH]; simpl; congruence.
Qed.

Lemma calls_of_app (a b : list event) :
  calls_of (a ++ b) = (calls_of a ++ calls_of b)%list.
Proof.
  induction a as [|[] a IH]; simpl; congruence.
Qed.

Lemma created_app (a b : list event) :
  created (a ++ b) = (created a ++ created b)%list.
Proof.
  induction a as [|x a IH]; [reflexivity|].
  destruct x as [| |[] []| |]; simpl; congruence.
Qed.

Lemma nil_eq_app {A} (y : A) (pre post : list A) :
  [] = (pre ++ y :: post)%list -> False.
Proof. destruct pre; discriminate. Qed.

Lemma cons_eq_app {A} (x y : A) (l pre post : list A) :
  x :: l = (pre ++ y :: post)%list ->
  (pre = [] /\ x = y /\ l = post) \/
  (exists pre', pre = x :: pre' /\ l = (pre' ++ y :: post)%list).
Proof.
  destruct pre as [|z pre]; simpl; intros H; inversion H; subst; eauto.
Qed.

Lemma failure_of_clean (pre post : list event) (c : EC2.call)
    (msg : string) :
  clean pre ->
  failure_of (pre ++ Call c (EC2.Raises msg) :: post) = Some (c, msg).
Proof.
  induction 1 as [|x pre Hx _ IH]; simpl; [reflexivity|].
  destruct x as [| |c0 [id|m]| |]; try exact IH. discriminate Hx.
Qed.

End TraceFacts.

(** ** The shape of every run *)

Section ScriptFacts.

Variable St : Type.
Variable respond : St -> EC2.call -> St * EC2.reply.

Lemma disciplined_ret {A} (a : A) : disciplined (ret (St := St) a).
Proof. intros s. simpl. constructor. constructor. Qed.

Lemma disciplined_emit (e : event) :
  is_failure e = false -> disciplined (emit (St := St) e).
Proof. intros He s. simpl. constructor. repeat constructor. exact He. Qed.

Lemma disciplined_print (line : string) :
  disciplined (print (St := St) line).
Proof. now apply disciplined_emit. Qed.

Lemma disciplined_invoke (c : EC2.call) : disciplined (invoke respond c).
Proof.
  intros s. unfold invoke.
  destruct (respond s c) as [s' [id|msg]]; simpl.
  - constructor. repeat constructor.
  - apply (finished_raise []). constructor.
Qed.

Lemma disciplined_bind {A B} (m : M St A) (k : A -> M St B) :
  disciplined m -> (forall a, disciplined (k a)) -> disciplined (bind m k).
Proof.
  intros Hm Hk s. unfold bind.
  specialize (Hm s). destruct (m s) as [[s1 t1] [a|e]]; simpl in *.
  - specialize (Hk a s1). destruct (k a s1) as [[s2 t2] r]; simpl in *.
    inversion Hm; subst.
    inversion Hk; subst.
    + constructor. now apply clean_app.
    + rewrite app_assoc. constructor. now apply clean_app.
  - inversion Hm; subst. now constructor.
Qed.

Ltac discipline :=
  repeat first
    [ apply disciplined_bind; [|intros ?]
    | apply disciplined_invoke
    | apply disciplined_print
    | apply disciplined_ret
    | apply disciplined_emit; reflexivity ].

Lemma create_vpc_disciplined (cidr_block name : string) :
  disciplined (create_vpc respond cidr_block name).
Proof. unfold create_vpc. discipline. Qed.

Lemma create_internet_gateway_disciplined (vpc_id : string) :
  disciplined (create_internet_gateway respond vpc_id).
Proof. unfold create_internet_gateway. discipline. Qed.

Lemma create_subnet_disciplined (vpc_id cidr_block name az : string) :
  disciplined (create_subnet respond vpc_id cidr_block name az).
Proof. unfold create_subnet. discipline. Qed.

Lemma create_route_table_disciplined (vpc_id subnet_id : string)
    (igw_id : option string) (name : string) :
  disciplined (create_route_table respond vpc_id subnet_id igw_id name).
Proof.
  unfold create_route_table. discipline.
  destruct igw_id as [igw|]; [destruct (truthy (Some igw))|]; discipline.
Qed.

Lemma provision_disciplined (args : Namespace) :
  disciplined (provision respond args).
Proof.
  unfold provision.
  repeat first
    [ apply create_vpc_disciplined
    | apply create_internet_gateway_disciplined
    | apply create_subnet_disciplined
    | apply create_route_table_disciplined
    | apply disciplined_print
    | apply disciplined_bind; [|intros ?] ].
Qed.

Lemma main_shape (line : command_line) (s : St) :
  run_shape line s (main respond line s).
Proof.
  unfold main.
  destruct (parse_args line) as [err|args] eqn:Hparse.
  - now constructor.
  - pose proof (provision_disciplined args s) as H.
    destruct (provision respond args s) as [[s' t] [a|e]]; simpl in H.
    + inversion H; subst. now apply (run_success _ _ args).
    + inversion H; subst. rewrite <- app_assoc. simpl.
      now apply (run_failure _ _ args).
Qed.

(** A failed call found in the trace of a run is the only one; what
    precedes it has no failure, what follows is the error line. *)
Lemma failure_decomposition (line : command_line) (s s' : St)
    (t pre post : list event) (r : termination)
    (c : EC2.call) (msg : string) :
  main respond line s = (s', t, r) ->
  t = (pre ++ Call c (EC2.Raises msg) :: post)%list ->
  clean pre /\ post = [Printed (error_line msg)] /\ r = SystemExit 1.
Proof.
  intros Hrun Ht. pose proof (main_shape line s) as Hshape.
  rewrite Hrun in Hshape.
  inversion Hshape
    as [err Herr | args s1 body Hp Hc | args s1 pre0 c0 msg0 Hp Hc].
  - destruct pre as [|x [|y pre]]; subst; discriminate.
  - exfalso.
    apply (clean_no_failure (Resource "ec2" :: body) pre post c msg);
      [constructor; [reflexivity | assumption] | congruence].
  - assert (Heq : ((Resource "ec2" :: pre0)
                   ++ Call c0 (EC2.Raises msg0) :: [Printed (error_line msg0)]
                   = pre ++ Call c (EC2.Raises msg) :: post)%list)
      by (simpl; congruence).
    apply failure_unique in Heq.
    + destruct Heq as (-> & _ & -> & ->).
      repeat split. constructor; [reflexivity | assumption].
    + constructor; [reflexivity | assumption].
    + repeat constructor.
Qed.

(** *** Case analysis on the client's answers *)

Ltac unfold_script :=
  cbv beta iota delta
    [main provision create_vpc create_internet_gateway create_subnet
     create_route_table bind ret emit print invoke truthy trace_of exit_of].

Ltac answer :=
  match goal with
  | |- context [respond ?s ?c] =>
      let E := fresh "E" in
      destruct (respond s c) as [? [?|?]] eqn:E
  | |- context [String.eqb ?a ""] =>
      let E := fresh "E" in
      destruct (String.eqb a "") eqn:E
  end; cbv beta iota delta [negb].

Ltac all_runs line :=
  unfold_script;
  destruct (parse_args line) as [?err|?args] eqn:?Hparse;
  [| repeat answer].

Lemma steps_follow_plan (line : command_line) (s : St) :
  let t := trace_of (main respond line s) in
  map step_name (steps_of t) = firstn (length (steps_of t)) plan.
Proof. all_runs line; reflexivity. Qed.

Lemma calls_inside_steps (line : command_line) (s : St) :
  first_call_in_step (trace_of (main respond line s)) = true.
Proof. all_runs line; reflexivity. Qed.

Lemma first_call_entered (t pre post : list event) (c : EC2.call)
    (r : EC2.reply) :
  first_call_in_step t = true ->
  t = (pre ++ Call c r :: post)%list ->
  steps_of pre <> [].
Proof.
  intros Hfirst ->. induction pre as [|x pre IH]; simpl in *.
  - discriminate.
  - destruct x; simpl; auto; discriminate.
Qed.

(** C2: whatever the client and whichever call it fails on, the failure
    falls inside one of the six steps, say step k; the steps entered are
    the first k of the fixed order; and nothing is invoked after the
    failed call: it is followed in the trace by the error line alone, so
    no step function is entered and no client method is called after it,
    and the process exits with status 1. *)
Theorem stops_at_first_failure (line : command_line) (s s' : St)
    (t pre post : list event) (r : termination)
    (c : EC2.call) (msg : string) :
  main respond line s = (s', t, r) ->
  t = (pre ++ Call c (EC2.Raises msg) :: post)%list ->
  let k := length (steps_of pre) in
  (1 <= k <= 6)%nat /\
  map step_name (steps_of t) = firstn k plan /\
  steps_of post = [] /\ calls_of post = [] /\
  post = [Printed (error_line msg)] /\ r = SystemExit 1.
Proof.
  intros Hrun Ht k.
  destruct (failure_decomposition _ _ _ _ _ _ _ _ _ Hrun Ht)
    as (_ & Hpost & Hr).
  pose proof (steps_follow_plan line s) as Hplan.
  pose proof (calls_inside_steps line s) as Hfirst.
  rewrite Hrun in Hplan, Hfirst. unfold trace_of in Hplan, Hfirst.
  simpl in Hplan, Hfirst.
  pose proof (first_call_entered _ _ _ _ _ Hfirst Ht) as Hne.
  assert (Hsteps : steps_of t = steps_of pre).
  { rewrite Ht, steps_of_app, Hpost. simpl. apply app_nil_r. }
  rewrite Hsteps in Hplan. fold k in Hplan.
  assert (Hk : (k <= 6)%nat).
  { apply (f_equal (@length string)) in Hplan.
    rewrite length_map, length_firstn in Hplan. fold k in Hplan.
    simpl in Hplan. lia. }
  assert (H1 : (1 <= k)%nat).
  { unfold k. destruct (steps_of pre); [congruence | simpl; lia]. }
  rewrite Hsteps, Hpost. auto 10.
Qed.

(** C3, amended: when [main] returns normally and the client did not
    answer [create_internet_gateway] with the empty string, exactly the
    six step functions are called, in the fixed order; the public route
    table step receives the gateway handle made by the second step and
    the private one receives [None]; and the only [create_route] call of
    the run is the default route of the public route table to that
    gateway. *)
Theorem provisioning_sequence (line : command_line) (s s' : St)
    (t : list event) :
  main respond line s = (s', t, returns_normally) ->
  ~ In (Call EC2.create_internet_gateway (EC2.Returns "")) t ->
  exists args vpc igw pub priv rt_pub rt_priv,
    parse_args line = inr args /\
    created t = [vpc; igw; pub; priv; rt_pub; rt_priv] /\
    steps_of t =
      [step_create_vpc (vpc_cidr args) (vpc_name args);
       step_create_internet_gateway vpc;
       step_create_subnet vpc (public_subnet_cidr args) "PublicSubnet"
         (availability_zone args);
       step_create_subnet vpc (private_subnet_cidr args) "PrivateSubnet"
         (availability_zone args);
       step_create_route_table vpc pub (Some igw) "PublicRouteTable";
       step_create_route_table vpc priv None "PrivateRouteTable"] /\
    calls_of t =
      [EC2.create_vpc (vpc_cidr args);
       EC2.wait_until_available vpc;
       EC2.create_tags vpc "Name" (vpc_name args);
       EC2.create_internet_gateway;
       EC2.attach_to_vpc igw vpc;
       EC2.create_subnet vpc (public_subnet_cidr args)
         (availability_zone args);
       EC2.create_tags pub "Name" "PublicSubnet";
       EC2.create_subnet vpc (private_subnet_cidr args)
         (availability_zone args);
       EC2.create_tags priv "Name" "PrivateSubnet";
       EC2.create_route_table vpc;
       EC2.create_tags rt_pub "Name" "PublicRouteTable";
       EC2.associate_with_subnet rt_pub pub;
       EC2.create_route rt_pub "0.0.0.0/0" igw;
       EC2.create_route_table vpc;
       EC2.create_tags rt_priv "Name" "PrivateRouteTable";
       EC2.associate_with_subnet rt_priv priv].
Proof.
  intros Hrun Hne. revert Hrun Hne.
  all_runs line; intros Hrun Hne; try discriminate Hrun;
    injection Hrun as _ <-.
  - exfalso. apply Hne. apply String.eqb_eq in E11. subst.
    simpl. auto 12.
  - do 7 eexists. repeat split; reflexivity.
Qed.

Ltac replay_answers :=
  repeat match goal with
         | E : respond ?s ?c = _ |- context [respond ?s ?c] =>
             rewrite E; cbn [fst]
         end.

Lemma state_is_replay (line : command_line) (s : St) :
  fst (fst (main respond line s))
  = replay respond (calls_of (trace_of (main respond line s))) s.
Proof.
  all_runs line; unfold replay; cbn [fst snd calls_of fold_left app];
    replay_answers; reflexivity.
Qed.

Lemma no_teardown_call (line : command_line) (s : St) :
  forallb (fun c => negb (EC2.is_teardown c))
          (calls_of (trace_of (main respond line s))) = true.
Proof. all_runs line; reflexivity. Qed.

(** C4: no rollback.  In every run, no call made to the client is a
    [delete] or a [detach_from_vpc], and the state the client is left in
    is the one produced by the calls of the trace; when a call fails,
    that is the state in which the failed call itself left the client:
    nothing is called afterwards, so whatever the earlier calls created
    stays. *)
Theorem no_rollback (line : command_line) (s s' : St)
    (t : list event) (r : termination) :
  main respond line s = (s', t, r) ->
  Forall (fun c => EC2.is_teardown c = false) (calls_of t) /\
  s' = replay respond (calls_of t) s /\
  forall pre c msg post,
    t = (pre ++ Call c (EC2.Raises msg) :: post)%list ->
    calls_of post = [] /\
    created t = created pre /\
    s' = replay respond (calls_of pre ++ [c]) s.
Proof.
  intros Hrun.
  pose proof (state_is_replay line s) as Hstate.
  pose proof (no_teardown_call line s) as Hcalls.
  rewrite Hrun in Hstate, Hcalls. unfold trace_of in *. simpl in Hstate, Hcalls.
  split; [|split; [assumption|]].
  - apply Forall_forall. intros c Hc.
    rewrite forallb_forall in Hcalls. specialize (Hcalls c Hc).
    now apply negb_true_iff in Hcalls.
  - intros pre c msg post Ht.
    destruct (failure_decomposition _ _ _ _ _ _ _ _ _ Hrun Ht)
      as (_ & Hpost & _).
    subst post. split; [reflexivity|].
    assert (Hc : calls_of t = (calls_of pre ++ [c])%list)
      by (rewrite Ht, calls_of_app; reflexivity).
    split; [|now rewrite <- Hc].
    rewrite Ht, created_app.
    replace (created [Call c (EC2.Raises msg); Printed (error_line msg)])
      with (@nil string) by (destruct c; reflexivity).
    apply app_nil_r.
Qed.

Lemma failure_report_lines (line : command_line) (s : St) :
  let t := trace_of (main respond line s) in
  match failure_of t with
  | Some (_, msg) => stdout_of t = (completed_lines t ++ [error_line msg])%list
  | None => True
  end.
Proof.
  all_runs line; cbv zeta; unfold completed_lines; simpl; try exact I;
    repeat match goal with
           | E : String.eqb _ _ = _ |- _ => rewrite E
           end;
    reflexivity.
Qed.

Lemma failure_report_steps (line : command_line) (s : St) :
  let t := trace_of (main respond line s) in
  let done := firstn (length (steps_of t) - 1) (step_handles t) in
  match failure_of t with
  | Some _ =>
      map fst done = firstn (length (steps_of t) - 1) (steps_of t) /\
      map snd done = firstn (length (steps_of t) - 1) (created t)
  | None => True
  end.
Proof.
  all_runs line; cbv zeta; simpl; try exact I; split; reflexivity.
Qed.

Lemma prefix_append (a b : string) : String.prefix a (a ++ b) = true.
Proof.
  induction a as [|c a IH]; simpl; [now destruct b|].
  destruct (ascii_dec c c); [exact IH | congruence].
Qed.

Lemma prefix_self (a : string) : String.prefix a a = true.
Proof.
  induction a as [|c a IH]; simpl; [reflexivity|].
  destruct (ascii_dec c c); [exact IH | congruence].
Qed.

Lemma occurs_prefix (sub s : string) :
  String.prefix sub s = true -> occurs sub s = true.
Proof. intros H. destruct s; cbn [occurs]; now rewrite H. Qed.

Lemma occurs_append (a sub b : string) : occurs sub (a ++ sub ++ b) = true.
Proof.
  induction a as [|c a IH]; simpl.
  - apply occurs_prefix, prefix_append.
  - rewrite IH. apply orb_true_r.
Qed.

Lemma occurs_append_end (a sub : string) : occurs sub (a ++ sub) = true.
Proof.
  induction a as [|c a IH]; simpl.
  - apply occurs_prefix, prefix_self.
  - rewrite IH. apply orb_true_r.
Qed.

Lemma success_line_shows_handle (st : step) (h : string) :
  shows_handle st h.
Proof.
  destruct st as [cidr name | vpc | vpc cidr name az | vpc subnet igw name];
    unfold shows_handle, success_line.
  - exact (occurs_append_end (check_mark ++ " Created VPC: ") h).
  - exact (occurs_append_end
             (check_mark ++ " Created and attached Internet Gateway: ") h).
  - exact (occurs_append (check_mark ++ " Created Subnet: ") h
             (" (" ++ name ++ ")")).
  - destruct (truthy igw); [reflexivity|].
    exact (occurs_append_end
             (check_mark ++ " Created private Route Table: ") h).
Qed.

(** C6, amended: when a client call fails, in step k, the process exits
    with status 1, and what it has printed is the success line of each of
    the steps 1..k-1, in order, each with the handle that step created,
    followed by the single line made of the cross mark, " Error: " and the
    text of the exception.  The success line of the VPC, of the gateway
    and of a subnet shows the step's handle; the success line of a route
    table shows the table's handle when no default route was added (no
    gateway id, or an empty one) and the table's name tag instead when one
    was.  Nothing else is printed or returned: the failing step is named
    only as far as the text of the exception names it, and there is no
    list of handles. *)
Theorem failure_report (line : command_line) (s s' : St)
    (t pre post : list event) (r : termination)
    (c : EC2.call) (msg : string) :
  main respond line s = (s', t, r) ->
  t = (pre ++ Call c (EC2.Raises msg) :: post)%list ->
  let k := length (steps_of t) in
  let done := firstn (k - 1) (step_handles t) in
  r = SystemExit 1 /\
  map fst done = firstn (k - 1) (steps_of t) /\
  map snd done = firstn (k - 1) (created t) /\
  stdout_of t
  = (map (fun '(st, h) => success_line st h) done ++ [error_line msg])%list /\
  Forall (fun '(st, h) => shows_handle st h) done.
Proof.
  intros Hrun Ht k done.
  destruct (failure_decomposition _ _ _ _ _ _ _ _ _ Hrun Ht)
    as (Hclean & _ & Hr).
  split; [assumption|].
  pose proof (failure_report_lines line s) as Hlines.
  pose proof (failure_report_steps line s) as Hsteps.
  rewrite Hrun in Hlines, Hsteps. unfold trace_of in Hlines, Hsteps.
  simpl in Hlines, Hsteps.
  assert (Hfail : failure_of t = Some (c, msg))
    by (rewrite Ht; now apply failure_of_clean).
  rewrite Hfail in Hlines, Hsteps.
  destruct Hsteps as [Hfst Hsnd].
  repeat split; try assumption.
  apply Forall_forall. intros [st h] _. apply success_line_shows_handle.
Qed.

(** Enumerates the positions at which the element singled out in
    [H : l = pre ++ x :: post] can sit in the explicit list [l], running
    [tac] at each position where it fits. *)
Ltac positions H tac :=
  lazymatch type of H with
  | [] = _ => apply nil_eq_app in H; contradiction
  | _ :: _ = _ =>
      apply cons_eq_app in H;
      let Hx := fresh "Hx" in
      destruct H as [(-> & Hx & <-) | (? & -> & H)];
      [ first [ discriminate Hx | inversion Hx; subst; tac ]
      | positions H tac ]
  end.

Lemma subnet_after_wait (line : command_line) (s : St)
    (pre post : list event) (vpc cidr az : string) (rep : EC2.reply) :
  trace_of (main respond line s)
  = (pre ++ Call (EC2.create_subnet vpc cidr az) rep :: post)%list ->
  exists id, In (Call (EC2.wait_until_available vpc) (EC2.Returns id)) pre.
Proof.
  all_runs line; cbn [fst snd app]; intros Ht;
    positions Ht ltac:(eexists; simpl; eauto 8).
Qed.

Lemma wait_failure_in_first_step (line : command_line) (s : St)
    (pre post : list event) (vpc msg : string) :
  trace_of (main respond line s)
  = (pre ++ Call (EC2.wait_until_available vpc) (EC2.Raises msg)
         :: post)%list ->
  map step_name (steps_of pre) = ["create_vpc"] /\
  calls_of pre = [EC2.create_vpc (vpc_cidr_of line)].
Proof.
  unfold vpc_cidr_of.
  all_runs line; cbn [fst snd app]; intros Ht;
    positions Ht ltac:(split; reflexivity).
Qed.

(** C7: in every run, a [create_subnet] call on a VPC comes after a
    [wait_until_available] call on that VPC has returned; and when the
    wait raises, that failure ends the run inside the VPC step: the wait
    was called once, right after [create_vpc], nothing is called after
    it, no further step is entered, the error line is printed and the
    process exits with status 1. *)
Theorem vpc_available_before_subnets (line : command_line) (s s' : St)
    (t : list event) (r : termination) :
  main respond line s = (s', t, r) ->
  (forall pre vpc cidr az rep post,
      t = (pre ++ Call (EC2.create_subnet vpc cidr az) rep :: post)%list ->
      exists id,
        In (Call (EC2.wait_until_available vpc) (EC2.Returns id)) pre) /\
  (forall pre vpc msg post,
      t = (pre ++ Call (EC2.wait_until_available vpc) (EC2.Raises msg)
               :: post)%list ->
      calls_of pre = [EC2.create_vpc (vpc_cidr_of line)] /\
      map step_name (steps_of t) = ["create_vpc"] /\
      calls_of post = [] /\
      post = [Printed (error_line msg)] /\
      r = SystemExit 1).
Proof.
  intros Hrun. split.
  - intros pre vpc cidr az rep post Ht.
    apply (subnet_after_wait line s pre post vpc cidr az rep).
    now rewrite Hrun.
  - intros pre vpc msg post Ht.
    destruct (failure_decomposition _ _ _ _ _ _ _ _ _ Hrun Ht)
      as (_ & Hpost & Hr).
    destruct (wait_failure_in_first_step line s pre post vpc msg)
      as (Hsteps & Hcalls); [now rewrite Hrun|].
    subst post. repeat split; auto.
    rewrite Ht, steps_of_app. simpl. now rewrite app_nil_r.
Qed.

End ScriptFacts.

(** ** The command line *)

Section ParserRuns.

Variable St : Type.
Variable respond : St -> EC2.call -> St * EC2.reply.

Lemma flag_type_raises (f : flag) (v : string) (e : exn) :
  flag_type f v = Raise e -> cidr_flag f = true /\ e = invalid_cidr v.
Proof.
  destruct f; simpl; try discriminate;
    destruct (validate_cidr_cases v) as [H|H]; rewrite H;
    intros H'; inversion H'; auto.
Qed.

Lemma convert_all_invalid (line : command_line) :
  forall seen f v,
    In (f, v) line -> cidr_flag f = true ->
    validate_cidr v = Raise (invalid_cidr v) ->
    exists f' v',
      In (f', v') line /\ cidr_flag f' = true /\
      convert_all line seen = inl (bad_argument f' (invalid_cidr v')).
Proof.
  induction line as [|[f0 v0] rest IH]; intros seen f v Hin Hf Hv.
  - contradiction.
  - simpl. destruct (flag_type f0 v0) as [v1|e] eqn:Hconv.
    + destruct Hin as [Heq|Hin].
      * inversion Heq; subst f0 v0.
        destruct f; try discriminate Hf; simpl in Hconv; congruence.
      * destruct (IH ((f0, v1) :: seen) f v Hin Hf Hv)
          as (f' & v' & Hin' & Hf' & Hc).
        exists f', v'. auto.
    + apply flag_type_raises in Hconv as [Hf0 ->].
      exists f0, v0. auto.
Qed.

(** C5, amended: whenever one of the CIDR values given on the command line
    is rejected by [validate_cidr], [main] ends in the parser's usage error
    (exit status 2) for an invalid CIDR argument, raised from
    [ArgumentTypeError "Invalid CIDR: ..."], in the client state it
    started from: the trace holds that error alone, so [boto3.resource]
    was not called, no step function was entered and no client method
    was called. *)
Theorem invalid_cidr_fails_before_client (line : command_line) (s : St)
    (f : flag) (v : string) :
  In (f, v) line ->
  cidr_flag f = true ->
  validate_cidr v = Raise (invalid_cidr v) ->
  exists f' v',
    In (f', v') line /\ cidr_flag f' = true /\
    main respond line s
    = (s, [Usage (bad_argument f' (invalid_cidr v'))], SystemExit 2).
Proof.
  intros Hin Hf Hv.
  destruct (convert_all_invalid line [] f v Hin Hf Hv)
    as (f' & v' & Hin' & Hf' & Hc).
  exists f', v'. repeat split; auto.
  unfold main, parse_args. now rewrite Hc.
Qed.

Lemma lookup_cons (f g : flag) (v : string) (seen : list (flag * string)) :
  flag_eqb f g = false -> lookup f ((g, v) :: seen) = lookup f seen.
Proof. unfold lookup. simpl. now intros ->. Qed.

Lemma convert_all_not_given (f : flag) (line : command_line) :
  forall seen seen',
    given f line = false ->
    lookup f seen = None ->
    convert_all line seen = inr seen' ->
    lookup f seen' = None.
Proof.
  induction line as [|[g v] rest IH]; simpl; intros seen seen' Hg Hl Hc.
  - now inversion Hc; subst.
  - apply orb_false_iff in Hg as [Hfg Hrest].
    destruct (flag_type g v) as [v'|e]; [|discriminate].
    apply (IH ((g, v') :: seen) seen' Hrest); [|assumption].
    now rewrite lookup_cons.
Qed.

(** C8, amended: [--vpc-name] and [--availability-zone] are required to
    be given, not to be non-empty: when either flag is absent from the
    command line, [main] ends in the parser's usage error (exit status 2)
    before [boto3.resource] is called or any step runs. *)
Theorem missing_name_or_zone_fails (line : command_line) (s : St) :
  given opt_vpc_name line = false \/
  given opt_availability_zone line = false ->
  exists err, main respond line s = (s, [Usage err], SystemExit 2).
Proof.
  intros Habsent. unfold main, parse_args.
  destruct (convert_all line []) as [err|seen] eqn:Hc; [eauto|].
  assert (Hnone : lookup opt_vpc_name seen = None \/
                  lookup opt_availability_zone seen = None).
  { destruct Habsent as [H|H]; [left|right];
      apply (convert_all_not_given _ line [] seen);
      solve [assumption | reflexivity]. }
  destruct Hnone as [H|H]; rewrite H;
    repeat match goal with
           | |- context [match lookup ?f seen with _ => _ end] =>
               destruct (lookup f seen)
           end; eauto.
Qed.

End ParserRuns.

(** ** Runs against the test clients *)

(** C3, as stated, fails: against a client whose every call succeeds and
    that returns the empty string as the gateway's id, the six steps run
    and the public route table step receives the gateway handle, yet no
    route table gets a default route: the script tests the handle for
    truth, and the empty string is false. *)
Lemma blank_gateway_gets_no_default_route :
  exit_of Stub.blank_run = returns_normally /\
  clean (trace_of Stub.blank_run) /\
  map step_name (steps_of (trace_of Stub.blank_run)) = plan /\
  In (step_create_route_table "" "" (Some "") "PublicRouteTable")
     (steps_of (trace_of Stub.blank_run)) /\
  ~ (exists table dest gw,
        In (EC2.create_route table dest gw)
           (calls_of (trace_of Stub.blank_run))).
Proof.
  split; [reflexivity|].
  split; [repeat constructor|].
  split; [reflexivity|].
  split; [simpl; auto 10|].
  intros (table & dest & gw & H). simpl in H.
  repeat (destruct H as [H|H]; [discriminate H|]). exact H.
Qed.

Lemma provisioning_sequence_witness :
  exists args vpc igw pub priv rt_pub rt_priv,
    parse_args Stub.demo = inr args /\
    created (trace_of (Stub.run None Stub.demo))
    = [vpc; igw; pub; priv; rt_pub; rt_priv] /\
    steps_of (trace_of (Stub.run None Stub.demo)) =
      [step_create_vpc (vpc_cidr args) (vpc_name args);
       step_create_internet_gateway vpc;
       step_create_subnet vpc (public_subnet_cidr args) "PublicSubnet"
         (availability_zone args);
       step_create_subnet vpc (private_subnet_cidr args) "PrivateSubnet"
         (availability_zone args);
       step_create_route_table vpc pub (Some igw) "PublicRouteTable";
       step_create_route_table vpc priv None "PrivateRouteTable"] /\
    calls_of (trace_of (Stub.run None Stub.demo)) =
      [EC2.create_vpc (vpc_cidr args);
       EC2.wait_until_available vpc;
       EC2.create_tags vpc "Name" (vpc_name args);
       EC2.create_internet_gateway;
       EC2.attach_to_vpc igw vpc;
       EC2.create_subnet vpc (public_subnet_cidr args)
         (availability_zone args);
       EC2.create_tags pub "Name" "PublicSubnet";
       EC2.create_subnet vpc (private_subnet_cidr args)
         (availability_zone args);
       EC2.create_tags priv "Name" "PrivateSubnet";
       EC2.create_route_table vpc;
       EC2.create_tags rt_pub "Name" "PublicRouteTable";
       EC2.associate_with_subnet rt_pub pub;
       EC2.create_route rt_pub "0.0.0.0/0" igw;
       EC2.create_route_table vpc;
       EC2.create_tags rt_priv "Name" "PrivateRouteTable";
       EC2.associate_with_subnet rt_priv priv].
Proof.
  apply (provisioning_sequence nat (Stub.respond None) Stub.demo 0%nat
           (fst (fst (Stub.run None Stub.demo)))).
  - reflexivity.
  - intros H. simpl in H.
    repeat (destruct H as [H|H]; [discriminate H|]). exact H.
Defined.

Lemma stops_at_first_failure_witness :
  (1 <= 3 <= 6)%nat /\
  map step_name (steps_of (trace_of (Stub.run (Some 5%nat) Stub.demo)))
  = firstn 3 plan /\
  steps_of (after_failure (trace_of (Stub.run (Some 5%nat) Stub.demo))) = [] /\
  calls_of (after_failure (trace_of (Stub.run (Some 5%nat) Stub.demo))) = [] /\
  after_failure (trace_of (Stub.run (Some 5%nat) Stub.demo))
  = [Printed (error_line "denied: create_subnet")] /\
  exit_of (Stub.run (Some 5%nat) Stub.demo) = SystemExit 1.
Proof.
  apply (stops_at_first_failure nat (Stub.respond (Some 5%nat)) Stub.demo
           0%nat (fst (fst (Stub.run (Some 5%nat) Stub.demo)))
           (trace_of (Stub.run (Some 5%nat) Stub.demo))
           (before_failure (trace_of (Stub.run (Some 5%nat) Stub.demo)))
           (after_failure (trace_of (Stub.run (Some 5%nat) Stub.demo)))
           (exit_of (Stub.run (Some 5%nat) Stub.demo))
           (EC2.create_subnet "vpc-0" "10.0.1.0/24" "us-east-1a")
           "denied: create_subnet").
  - reflexivity.
  - reflexivity.
Defined.

Lemma no_rollback_witness :
  Forall (fun c => EC2.is_teardown c = false)
         (calls_of (trace_of (Stub.run (Some 11%nat) Stub.demo))) /\
  fst (fst (Stub.run (Some 11%nat) Stub.demo))
  = replay (Stub.respond (Some 11%nat))
      (calls_of (trace_of (Stub.run (Some 11%nat) Stub.demo))) 0%nat.
Proof.
  destruct (no_rollback nat (Stub.respond (Some 11%nat)) Stub.demo 0%nat
              (fst (fst (Stub.run (Some 11%nat) Stub.demo)))
              (trace_of (Stub.run (Some 11%nat) Stub.demo))
              (exit_of (Stub.run (Some 11%nat) Stub.demo)) eq_refl)
    as (H1 & H2 & _).
  split; [exact H1 | exact H2].
Defined.

(** C6, as stated, fails: when the client fails on the association of the
    private route table (sixth step), the public route table "rtb-9" was
    created by the fifth step, yet nothing the process prints contains that
    handle, nor the name of the step that failed or of its route table. *)
Lemma failure_report_omits_route_table :
  exit_of (Stub.run (Some 15%nat) Stub.demo) = SystemExit 1 /\
  failure_of (trace_of (Stub.run (Some 15%nat) Stub.demo))
  = Some (EC2.associate_with_subnet "rtb-13" "subnet-7",
          "denied: associate_with_subnet") /\
  In (step_create_route_table "vpc-0" "subnet-5" (Some "igw-3")
        "PublicRouteTable", "rtb-9")
     (step_handles (trace_of (Stub.run (Some 15%nat) Stub.demo))) /\
  forallb (fun l => negb (occurs "rtb-9" l)
                    && negb (occurs "create_route_table" l)
                    && negb (occurs "PrivateRouteTable" l))
          (stdout_of (trace_of (Stub.run (Some 15%nat) Stub.demo))) = true.
Proof.
  split; [reflexivity|].
  split; [reflexivity|].
  split; [simpl; auto 10 | reflexivity].
Qed.

Lemma failure_report_witness :
  exit_of (Stub.run (Some 15%nat) Stub.demo) = SystemExit 1 /\
  stdout_of (trace_of (Stub.run (Some 15%nat) Stub.demo))
  = [check_mark ++ " Created VPC: vpc-0";
     check_mark ++ " Created and attached Internet Gateway: igw-3";
     check_mark ++ " Created Subnet: subnet-5 (PublicSubnet)";
     check_mark ++ " Created Subnet: subnet-7 (PrivateSubnet)";
     check_mark ++ " Public Route added to IGW in PublicRouteTable";
     cross_mark ++ " Error: denied: associate_with_subnet"].
Proof.
  destruct (failure_report nat (Stub.respond (Some 15%nat)) Stub.demo 0%nat
              (fst (fst (Stub.run (Some 15%nat) Stub.demo)))
              (trace_of (Stub.run (Some 15%nat) Stub.demo))
              (before_failure (trace_of (Stub.run (Some 15%nat) Stub.demo)))
              (after_failure (trace_of (Stub.run (Some 15%nat) Stub.demo)))
              (exit_of (Stub.run (Some 15%nat) Stub.demo))
              (EC2.associate_with_subnet "rtb-13" "subnet-7")
              "denied: associate_with_subnet" eq_refl eq_refl)
    as (Hexit & _ & _ & Hout & _).
  split; [exact Hexit | exact Hout].
Defined.

Lemma vpc_available_before_subnets_witness :
  exists id,
    In (Call (EC2.wait_until_available "vpc-0") (EC2.Returns id))
       (firstn 11 (trace_of (Stub.run None Stub.demo))).
Proof.
  destruct (vpc_available_before_subnets nat (Stub.respond None) Stub.demo
              0%nat (fst (fst (Stub.run None Stub.demo)))
              (trace_of (Stub.run None Stub.demo))
              (exit_of (Stub.run None Stub.demo)) eq_refl)
    as (Hsubnet & _).
  apply (Hsubnet (firstn 11 (trace_of (Stub.run None Stub.demo)))
                 "vpc-0" "10.0.1.0/24" "us-east-1a" (EC2.Returns "subnet-5")
                 (skipn 12 (trace_of (Stub.run None Stub.demo)))).
  reflexivity.
Defined.

(** C5, as stated, fails: a VPC address without prefix is not of the form
    a.b.c.d/n, yet nothing stops the run: [validate_cidr] lets it through,
    the client is built, and [main] returns normally after its sixteen
    calls, the first of which creates a VPC with that very string. *)
Lemma missing_prefix_reaches_the_client :
  ~ cidr_form "10.0.0.0" /\
  In (opt_vpc_cidr, "10.0.0.0") Stub.prefixless /\
  exit_of (Stub.run None Stub.prefixless) = returns_normally /\
  In (Resource "ec2") (trace_of (Stub.run None Stub.prefixless)) /\
  length (calls_of (trace_of (Stub.run None Stub.prefixless))) = 16%nat /\
  hd_error (calls_of (trace_of (Stub.run None Stub.prefixless)))
  = Some (EC2.create_vpc "10.0.0.0").
Proof.
  split.
  - intros (q & p & Hs & _).
    assert (H : PyStr.contains "/" "10.0.0.0" = true)
      by (rewrite Hs; apply contains_app_sep).
    discriminate H.
  - repeat split; try reflexivity; simpl; auto.
Qed.

Lemma invalid_cidr_fails_before_client_witness :
  exists f v,
    In (f, v) Stub.bad_public /\ cidr_flag f = true /\
    Stub.run None Stub.bad_public
    = (0%nat, [Usage (bad_argument f (invalid_cidr v))], SystemExit 2).
Proof.
  apply (invalid_cidr_fails_before_client nat (Stub.respond None)
           Stub.bad_public 0%nat opt_public_subnet_cidr "999.0.0.0/24").
  - simpl. auto.
  - reflexivity.
  - reflexivity.
Defined.

(** C8, as stated, fails: with an empty VPC name and an empty availability
    zone, and a client that always succeeds, [main] returns normally
    after all six steps, having passed the empty strings on. *)
Lemma empty_name_and_zone_accepted :
  exit_of (Stub.run None Stub.unnamed) = returns_normally /\
  map step_name (steps_of (trace_of (Stub.run None Stub.unnamed))) = plan /\
  In (EC2.create_tags "vpc-0" "Name" "")
     (calls_of (trace_of (Stub.run None Stub.unnamed))) /\
  In (EC2.create_subnet "vpc-0" "10.0.1.0/24" "")
     (calls_of (trace_of (Stub.run None Stub.unnamed))).
Proof.
  split; [reflexivity|].
  split; [reflexivity|].
  split; simpl; auto 10.
Qed.

Lemma missing_name_or_zone_fails_witness :
  exists err, Stub.run None Stub.nameless = (0%nat, [Usage err], SystemExit 2).
Proof.
  apply (missing_name_or_zone_fails nat (Stub.respond None) Stub.nameless
           0%nat).
  left. reflexivity.
Defined.

(** * Further properties *)

(** ** The validator, in both directions *)

Section ValidatorFacts.

Import PyStr ipaddress.

Lemma decimal_not_empty (o : string) : decimal o -> String.eqb o "" = false.
Proof. destruct o; [discriminate | reflexivity]. Qed.

Lemma parse_octet_canonical (o : string) :
  canonical_octet o -> _parse_octet o = Ok (int10 o).
Proof.
  intros ((Hd & _ & H255) & Hlen & Hlz). unfold _parse_octet.
  rewrite (decimal_not_empty o Hd). unfold decimal in Hd. rewrite Hd.
  cbn [negb].
  replace (3 <? len o) with false
    by (symmetry; apply Z.ltb_ge; unfold len; lia).
  replace (negb (String.eqb o "0")
           && match o with
              | String c _ => Ascii.eqb c "0"
              | EmptyString => false
              end) with false.
  - replace (255 <? int10 o) with false
      by (symmetry; apply Z.ltb_ge; lia).
    reflexivity.
  - destruct o as [|c [|c' r]]; [reflexivity| |].
    + cbn. destruct (Ascii.eqb c "0"); reflexivity.
    + cbn in Hlz. rewrite Hlz. now rewrite andb_false_r.
Qed.

Lemma parse_octet_ok_canonical (o : string) (b : Z) :
  _parse_octet o = Ok b -> canonical_octet o.
Proof.
  intros H. pose proof (parse_octet_ok o b H) as [Ho _].
  split; [assumption|]. unfold _parse_octet in H.
  destruct (String.eqb o ""); [discriminate|].
  destruct (negb (isascii_and_isdigit o)); [discriminate|].
  destruct (3 <? len o) eqn:Hlen; [discriminate|].
  destruct (negb (String.eqb o "0") && _) eqn:Hlz; [discriminate|].
  apply Z.ltb_ge in Hlen. unfold len in Hlen. split; [lia|].
  destruct o as [|c [|c' r]]; try reflexivity.
  cbn in Hlz |- *. destruct (Ascii.eqb c "0"); [discriminate Hlz | reflexivity].
Qed.

Lemma parse_octets_canonical (os : list string) :
  Forall canonical_octet os -> parse_octets os = Ok (map int10 os).
Proof.
  induction 1 as [|o os Ho _ IH]; [reflexivity|].
  simpl. now rewrite (parse_octet_canonical o Ho), IH.
Qed.

Lemma parse_octets_ok_canonical (os : list string) :
  forall bs, parse_octets os = Ok bs -> Forall canonical_octet os.
Proof.
  induction os as [|o os IH]; intros bs H; [constructor|].
  simpl in H.
  destruct (_parse_octet o) as [b|e] eqn:Ho; [|discriminate].
  destruct (parse_octets os) as [bs'|e] eqn:Hos; [|discriminate].
  constructor; [eapply parse_octet_ok_canonical; eassumption | eauto].
Qed.

Lemma quad_not_empty (o1 o2 o3 o4 : string) :
  String.eqb (join "." [o1; o2; o3; o4]) "" = false.
Proof. cbn [join]. destruct o1; reflexivity. Qed.

(** How [_ip_int_from_string] runs on four dot-separated runs of digits. *)
Lemma ip_int_from_string_quad_eval (o1 o2 o3 o4 : string) :
  Forall decimal [o1; o2; o3; o4] ->
  _ip_int_from_string (join "." [o1; o2; o3; o4])
  = match parse_octets [o1; o2; o3; o4] with
    | Ok bs => Ok (from_bytes_big bs)
    | Raise e =>
        if isinstance_ValueError e then Raise AddressValueError else Raise e
    end.
Proof.
  intros Hd. unfold _ip_int_from_string.
  rewrite quad_not_empty, (split_quad o1 o2 o3 o4 Hd). reflexivity.
Qed.

Lemma canonical_decimal (os : list string) :
  Forall canonical_octet os -> Forall decimal os.
Proof.
  intros H. eapply Forall_impl; [|exact H]. now intros o ((Hd & _) & _).
Qed.

Lemma IPv4Address_canonical (o1 o2 o3 o4 : string) :
  Forall canonical_octet [o1; o2; o3; o4] ->
  IPv4Address (join "." [o1; o2; o3; o4])
  = Ok (address_value [o1; o2; o3; o4]).
Proof.
  intros Hc. pose proof (canonical_decimal _ Hc) as Hd.
  unfold IPv4Address.
  rewrite (quad_no_slash o1 o2 o3 o4 Hd).
  rewrite (ip_int_from_string_quad_eval o1 o2 o3 o4 Hd).
  now rewrite (parse_octets_canonical _ Hc).
Qed.

Lemma address_value_range (o1 o2 o3 o4 : string) :
  Forall octet_text [o1; o2; o3; o4] ->
  0 <= address_value [o1; o2; o3; o4] < 2 ^ 32.
Proof.
  intros H.
  repeat match goal with
         | H : Forall _ (_ :: _) |- _ => inversion H; clear H; subst
         end.
  repeat match goal with
         | H : octet_text _ |- _ => destruct H as [_ H]
         end.
  unfold address_value, from_bytes_big. cbn [map fold_left].
  change (2 ^ 32) with 4294967296. lia.
Qed.

(** An address below 2^32 whose low [32 - n] bits are clear is kept
    unchanged by the netmask of prefix length [n]. *)
Lemma netmask_keeps_network_address (ip n : Z) :
  0 <= n <= 32 -> 0 <= ip < 2 ^ 32 ->
  ip mod 2 ^ (32 - n) = 0 ->
  Z.land ip (_ip_int_from_prefix n) = ip.
Proof.
  intros Hn Hip Hmod. apply Z.bits_inj'. intros i Hi.
  rewrite Z.land_spec. unfold _ip_int_from_prefix.
  rewrite Z.lxor_spec, Z.shiftr_spec by lia.
  change _ALL_ONES with (Z.ones 32).
  destruct (Z.lt_ge_cases i (32 - n)) as [Hlow|Hmid].
  - assert (Hbit : Z.testbit ip i = false).
    { rewrite <- (Z.mod_pow2_bits_low ip (32 - n) i) by lia.
      rewrite Hmod. apply Z.bits_0. }
    now rewrite Hbit.
  - destruct (Z.lt_ge_cases i 32) as [Hin|Hout].
    + rewrite (Z.ones_spec_low 32 i) by lia.
      rewrite (Z.ones_spec_high 32 (i + n)) by lia.
      apply andb_true_r.
    + assert (Hbit : Z.testbit ip i = false).
      { destruct (Z.eq_dec ip 0) as [->|Hnz]; [apply Z.bits_0|].
        apply Z.bits_above_log2; [lia|].
        apply Z.log2_lt_pow2; [lia|].
        apply Z.lt_le_trans with (2 ^ 32); [lia|].
        apply Z.pow_le_mono_r; lia. }
      now rewrite Hbit.
Qed.

Lemma make_netmask_prefix (p : string) :
  prefix_text p -> len p <= int_max_str_digits ->
  _make_netmask (MaskStr p)
  = Ok (_ip_int_from_prefix (int10 p), int10 p).
Proof.
  intros Hp Hlen. unfold _make_netmask.
  now rewrite (prefix_from_prefix_string_text p Hp Hlen).
Qed.

(** How [IPv4Network] runs, in strict mode, on a canonical a.b.c.d/n whose
    prefix length is short enough for [int] to convert it. *)
Lemma IPv4Network_cidr_eval (o1 o2 o3 o4 p : string) :
  Forall canonical_octet [o1; o2; o3; o4] -> prefix_text p ->
  len p <= int_max_str_digits ->
  let ip := address_value [o1; o2; o3; o4] in
  let mask := _ip_int_from_prefix (int10 p) in
  IPv4Network (join "." [o1; o2; o3; o4] ++ "/" ++ p) true
  = if Z.land ip mask =? ip
    then Ok {| network_address := ip; netmask := mask;
               _prefixlen := int10 p |}
    else Raise ValueError.
Proof.
  intros Hc Hp Hlen ip mask. unfold IPv4Network.
  rewrite split_addr_prefix_cidr;
    [| apply quad_no_slash; now apply canonical_decimal
     | apply octet_text_sepfree; [reflexivity | apply Hp] ].
  cbn [rbind].
  rewrite (IPv4Address_canonical o1 o2 o3 o4 Hc). cbn [rbind].
  rewrite (make_netmask_prefix p Hp Hlen). cbn [rbind].
  fold ip mask. now destruct (Z.land ip mask =? ip).
Qed.

Lemma canonical_octet_text (os : list string) :
  Forall canonical_octet os -> Forall octet_text os.
Proof. intros H. eapply Forall_impl; [|exact H]. now intros o (Ho & _). Qed.

(** X1: for an address written with canonical octets and a decimal prefix
    length in [0,32] of at most 4300 digits (beyond that [int] refuses the
    conversion and the string is rejected), [validate_cidr] returns the
    string exactly when the address has no bit set among its low 32 - n
    host bits. *)
Theorem validate_cidr_accepts_iff_network_address (o1 o2 o3 o4 p : string) :
  Forall canonical_octet [o1; o2; o3; o4] ->
  prefix_text p ->
  len p <= int_max_str_digits ->
  let s := join "." [o1; o2; o3; o4] ++ "/" ++ p in
  validate_cidr s = Ok s <->
  address_value [o1; o2; o3; o4] mod 2 ^ (32 - int10 p) = 0.
Proof.
  intros Hc Hp Hlen s. unfold validate_cidr. subst s.
  rewrite (IPv4Network_cidr_eval o1 o2 o3 o4 p Hc Hp Hlen). cbv zeta.
  destruct (Z.land _ _ =? _) eqn:Hland.
  - apply Z.eqb_eq in Hland. split; [intros _ | reflexivity].
    apply netmask_keeps_no_host_bits; [apply Hp | assumption].
  - apply Z.eqb_neq in Hland. cbn. split; [discriminate|].
    intros Hmod. exfalso. apply Hland.
    apply netmask_keeps_network_address;
      [apply Hp | apply address_value_range; now apply canonical_octet_text
       | assumption].
Qed.

(** X2: a bare address a.b.c.d written with canonical octets, without any
    prefix, is always accepted and returned unchanged. *)
Theorem validate_cidr_accepts_bare_addresses (o1 o2 o3 o4 : string) :
  Forall canonical_octet [o1; o2; o3; o4] ->
  validate_cidr (join "." [o1; o2; o3; o4]) = Ok (join "." [o1; o2; o3; o4]).
Proof.
  intros Hc. unfold validate_cidr, IPv4Network, _split_addr_prefix,
    _split_optional_netmask.
  rewrite split_sepfree
    by (apply quad_no_slash; now apply canonical_decimal).
  cbn [length Nat.ltb Nat.leb rbind].
  rewrite (IPv4Address_canonical o1 o2 o3 o4 Hc). cbn [rbind].
  change (_make_netmask (MaskInt _max_prefixlen))
    with (Ok (A := Z * Z) (_ip_int_from_prefix 32, 32)).
  cbn [rbind].
  rewrite netmask_keeps_network_address;
    [ now rewrite Z.eqb_refl
    | lia
    | apply address_value_range; now apply canonical_octet_text
    | now rewrite Z.sub_diag, Z.pow_0_r, Z.mod_1_r ].
Qed.

Lemma append_empty (a : string) : a ++ "" = a.
Proof. induction a as [|c a IH]; simpl; congruence. Qed.

(** X3: an octet with a leading zero makes the whole string invalid,
    whatever follows the address: nothing, or a slash and any non-empty
    text. *)
Theorem validate_cidr_rejects_leading_zero (o1 o2 o3 o4 rest : string) :
  Forall decimal [o1; o2; o3; o4] ->
  Exists (fun o => leading_zero o = true) [o1; o2; o3; o4] ->
  let s := join "." [o1; o2; o3; o4]
           ++ match rest with
              | EmptyString => EmptyString
              | String _ _ => "/" ++ rest
              end in
  validate_cidr s = Raise (invalid_cidr s).
Proof.
  intros Hd Hz s.
  destruct (validate_cidr_cases s) as [Hok|Herr]; [|assumption].
  exfalso.
  apply validate_cidr_ok_network in Hok as [net Hnet].
  apply IPv4Network_ok in Hnet as (a & m & ip & nm & pl & Hs & Ha & _).
  assert (Hq : a = join "." [o1; o2; o3; o4]).
  { unfold _split_addr_prefix, _split_optional_netmask in Hs. subst s.
    pose proof (quad_no_slash o1 o2 o3 o4 Hd) as Hslash.
    destruct rest as [|c rest].
    - rewrite append_empty in Hs.
      rewrite (split_sepfree "/" _ Hslash) in Hs.
      now inversion Hs.
    - change ("/" ++ String c rest) with (String "/" (String c rest)) in Hs.
      rewrite (split_app_sep "/" _ _ Hslash) in Hs.
      destruct (split "/" (String c rest)) as [|x [|y l]];
        cbn in Hs; now inversion Hs. }
  subst a. apply IPv4Address_ok in Ha.
  rewrite (ip_int_from_string_quad_eval o1 o2 o3 o4 Hd) in Ha.
  destruct (parse_octets [o1; o2; o3; o4]) as [bs|e] eqn:Hp.
  - apply parse_octets_ok_canonical in Hp.
    apply Exists_exists in Hz as (o & Hin & Hlz).
    rewrite Forall_forall in Hp. destruct (Hp o Hin) as (_ & _ & Hno).
    congruence.
  - destruct (isinstance_ValueError e); discriminate.
Qed.

(** X4: [validate_cidr] never lets an exception of [ipaddress] through and
    never rewrites its argument: it returns the argument itself, or raises
    [ArgumentTypeError] with the text "Invalid CIDR: " followed by the
    argument. *)
Theorem validate_cidr_returns_argument_or_argument_error (s : string) :
  (validate_cidr s = Ok s /\ exists net, IPv4Network s true = Ok net) \/
  (validate_cidr s = Raise (ArgumentTypeError ("Invalid CIDR: " ++ s)) /\
   exists e, IPv4Network s true = Raise e /\ isinstance_ValueError e = true).
Proof.
  unfold validate_cidr.
  destruct (IPv4Network s true) as [net|e] eqn:H.
  - left. eauto.
  - right. pose proof (IPv4Network_raises s true e H) as He.
    rewrite He. eauto.
Qed.

End ValidatorFacts.

Ltac evaluate :=
  repeat first [split | constructor];
  first [reflexivity | vm_compute; congruence | vm_compute; lia].

Lemma validate_cidr_accepts_iff_network_address_witness :
  validate_cidr "10.0.1.0/24" = Ok "10.0.1.0/24" <->
  address_value ["10"; "0"; "1"; "0"] mod 2 ^ (32 - PyStr.int10 "24") = 0.
Proof.
  apply (validate_cidr_accepts_iff_network_address "10" "0" "1" "0" "24");
    evaluate.
Defined.

Lemma validate_cidr_accepts_bare_addresses_witness :
  validate_cidr "192.168.0.1" = Ok "192.168.0.1".
Proof.
  apply (validate_cidr_accepts_bare_addresses "192" "168" "0" "1"); evaluate.
Defined.

Lemma validate_cidr_rejects_leading_zero_witness :
  validate_cidr "010.0.0.0/8" = Raise (invalid_cidr "010.0.0.0/8").
Proof.
  apply (validate_cidr_rejects_leading_zero "010" "0" "0" "0" "8").
  - evaluate.
  - apply Exists_cons_hd. reflexivity.
Defined.

(** ** What [parse_args] keeps *)

Section ParserMore.

Lemma flag_eqb_eq (f g : flag) : flag_eqb f g = true <-> f = g.
Proof. destruct f, g; simpl; split; congruence. Qed.

Lemma flag_type_ok (f : flag) (v v' : string) :
  flag_type f v = Ok v' -> v' = v.
Proof.
  destruct f; simpl; try (now inversion 1);
    destruct (validate_cidr_cases v) as [H|H]; rewrite H; now inversion 1.
Qed.

Lemma convert_all_ok (line : command_line) :
  forall seen seen',
    convert_all line seen = inr seen' ->
    seen' = (rev line ++ seen)%list /\ cidrs_valid line.
Proof.
  induction line as [|[f v] rest IH]; simpl; intros seen seen' H.
  - inversion H. split; [reflexivity | intros ? ? []].
  - destruct (flag_type f v) as [v'|e] eqn:Hconv; [|discriminate].
    pose proof (flag_type_ok f v v' Hconv) as ->.
    destruct (IH _ _ H) as [-> Hvalid].
    split; [now rewrite <- app_assoc|].
    intros g w [Heq|Hin] Hg; [|exact (Hvalid g w Hin Hg)].
    inversion Heq; subst g w. destruct f; try discriminate Hg; exact Hconv.
Qed.

Lemma convert_all_valid (line : command_line) :
  forall seen,
    cidrs_valid line -> convert_all line seen = inr (rev line ++ seen)%list.
Proof.
  induction line as [|[f v] rest IH]; simpl; intros seen Hvalid;
    [reflexivity|].
  assert (Hconv : flag_type f v = Ok v).
  { pose proof (Hvalid f v (or_introl eq_refl)) as Hv.
    destruct f; try reflexivity; exact (Hv eq_refl). }
  rewrite Hconv, IH, <- app_assoc; [reflexivity|].
  intros g w Hin Hg. apply (Hvalid g w); [now right | assumption].
Qed.

Lemma lookup_given (f : flag) (l : list (flag * string)) :
  given f l = true <-> exists v, lookup f l = Some v.
Proof.
  unfold lookup, given. induction l as [|[g w] l IH]; simpl.
  - split; [discriminate | intros [v H]; discriminate].
  - destruct (flag_eqb f g); simpl; [split; eauto | exact IH].
Qed.

Lemma given_rev (f : flag) (line : command_line) :
  given f (rev line) = given f line.
Proof.
  unfold given. apply eq_true_iff_eq.
  rewrite !existsb_exists. split; intros (x & Hin & Hx); exists x;
    (split; [|assumption]); [now apply in_rev | now apply in_rev in Hin].
Qed.

Lemma given_last_value (f : flag) (line : command_line) :
  given f line = true <-> exists v, last_value f line = Some v.
Proof. unfold last_value. now rewrite <- lookup_given, given_rev. Qed.

Lemma last_value_in (f : flag) (line : command_line) (v : string) :
  last_value f line = Some v -> In (f, v) line.
Proof.
  unfold last_value, lookup. intros H. apply in_rev.
  destruct (find _ (rev line)) as [[g w]|] eqn:Hfind; [|discriminate].
  apply find_some in Hfind as [Hin Heq].
  apply flag_eqb_eq in Heq. inversion H. now subst.
Qed.

Lemma parse_args_last_values (line : command_line)
    (args : Namespace) :
  parse_args line = inr args ->
  last_value opt_vpc_cidr line = Some (vpc_cidr args) /\
  last_value opt_vpc_name line = Some (vpc_name args) /\
  last_value opt_public_subnet_cidr line = Some (public_subnet_cidr args) /\
  last_value opt_private_subnet_cidr line = Some (private_subnet_cidr args) /\
  last_value opt_availability_zone line = Some (availability_zone args).
Proof.
  unfold parse_args, last_value. intros H.
  destruct (convert_all line []) as [err|seen] eqn:Hc; [discriminate|].
  apply convert_all_ok in Hc as [-> _]. rewrite app_nil_r in H.
  destruct (lookup opt_vpc_cidr (rev line)); [|discriminate].
  destruct (lookup opt_vpc_name (rev line)); [|discriminate].
  destruct (lookup opt_public_subnet_cidr (rev line)); [|discriminate].
  destruct (lookup opt_private_subnet_cidr (rev line)); [|discriminate].
  destruct (lookup opt_availability_zone (rev line)); [|discriminate].
  inversion H. simpl. auto.
Qed.

(** X5: when [parse_args] succeeds, each field of the namespace is the
    value of the last occurrence of its flag on the command line, character
    for character: a later occurrence overrides an earlier one, and a CIDR
    value is kept as typed, not rewritten into a canonical form. *)
Theorem parse_args_keeps_last_values (line : command_line)
    (args : Namespace) :
  parse_args line = inr args ->
  last_value opt_vpc_cidr line = Some (vpc_cidr args) /\
  last_value opt_vpc_name line = Some (vpc_name args) /\
  last_value opt_public_subnet_cidr line = Some (public_subnet_cidr args) /\
  last_value opt_private_subnet_cidr line = Some (private_subnet_cidr args) /\
  last_value opt_availability_zone line = Some (availability_zone args).
Proof. apply parse_args_last_values. Qed.

Lemma parse_args_ok_iff (line : command_line) :
  (exists args, parse_args line = inr args) <->
  (forall f, given f line = true) /\ cidrs_valid line.
Proof.
  split.
  - intros [args H].
    pose proof (parse_args_last_values line args H) as Hlast.
    split.
    + intros f. apply given_last_value.
      destruct Hlast as (H1 & H2 & H3 & H4 & H5). destruct f; eauto.
    + unfold parse_args in H.
      destruct (convert_all line []) as [err|seen] eqn:Hc; [discriminate|].
      now apply convert_all_ok in Hc.
  - intros [Hgiven Hvalid]. unfold parse_args.
    rewrite (convert_all_valid line [] Hvalid), app_nil_r.
    destruct (proj1 (given_last_value opt_vpc_cidr line)
                (Hgiven _)) as [a Ha].
    destruct (proj1 (given_last_value opt_vpc_name line)
                (Hgiven _)) as [b Hb].
    destruct (proj1 (given_last_value opt_public_subnet_cidr line)
                (Hgiven _)) as [c Hc].
    destruct (proj1 (given_last_value opt_private_subnet_cidr line)
                (Hgiven _)) as [d Hd].
    destruct (proj1 (given_last_value opt_availability_zone line)
                (Hgiven _)) as [e He].
    unfold last_value in *. rewrite Ha, Hb, Hc, Hd, He. eauto.
Qed.

(** X6: what [parse_args] returns has been checked.  When it returns a
    namespace, each of the five flags was given, every value given for a
    CIDR flag passes [validate_cidr] (an overridden occurrence as well as
    the last one), and so do the three CIDR fields of the namespace. *)
Theorem parse_args_result_is_validated (line : command_line)
    (args : Namespace) :
  parse_args line = inr args ->
  (forall f, given f line = true) /\
  cidrs_valid line /\
  validate_cidr (vpc_cidr args) = Ok (vpc_cidr args) /\
  validate_cidr (public_subnet_cidr args) = Ok (public_subnet_cidr args) /\
  validate_cidr (private_subnet_cidr args) = Ok (private_subnet_cidr args).
Proof.
  intros H.
  assert (Hok : (forall f, given f line = true) /\ cidrs_valid line)
    by (apply parse_args_ok_iff; eauto).
  destruct Hok as [Hgiven Hvalid].
  destruct (parse_args_last_values line args H) as (Hv & _ & Hpub & Hpriv & _).
  repeat split; try assumption.
  - apply (Hvalid opt_vpc_cidr); [now apply last_value_in | reflexivity].
  - apply (Hvalid opt_public_subnet_cidr);
      [now apply last_value_in | reflexivity].
  - apply (Hvalid opt_private_subnet_cidr);
      [now apply last_value_in | reflexivity].
Qed.

End ParserMore.

Lemma parse_args_keeps_last_values_witness :
  last_value opt_vpc_cidr
    ((opt_vpc_cidr, "10.9.0.0/16") :: Stub.demo) = Some "10.0.0.0/16" /\
  last_value opt_vpc_name
    ((opt_vpc_cidr, "10.9.0.0/16") :: Stub.demo) = Some "demo" /\
  last_value opt_public_subnet_cidr
    ((opt_vpc_cidr, "10.9.0.0/16") :: Stub.demo) = Some "10.0.1.0/24" /\
  last_value opt_private_subnet_cidr
    ((opt_vpc_cidr, "10.9.0.0/16") :: Stub.demo) = Some "10.0.2.0/24" /\
  last_value opt_availability_zone
    ((opt_vpc_cidr, "10.9.0.0/16") :: Stub.demo) = Some "us-east-1a".
Proof.
  apply (parse_args_keeps_last_values
           ((opt_vpc_cidr, "10.9.0.0/16") :: Stub.demo)
           {| vpc_cidr := "10.0.0.0/16"; vpc_name := "demo";
              public_subnet_cidr := "10.0.1.0/24";
              private_subnet_cidr := "10.0.2.0/24";
              availability_zone := "us-east-1a" |}).
  reflexivity.
Defined.

Lemma parse_args_result_is_validated_witness :
  (forall f, given f ((opt_vpc_cidr, "10.9.0.0/16") :: Stub.demo) = true) /\
  cidrs_valid ((opt_vpc_cidr, "10.9.0.0/16") :: Stub.demo) /\
  validate_cidr "10.0.0.0/16" = Ok "10.0.0.0/16" /\
  validate_cidr "10.0.1.0/24" = Ok "10.0.1.0/24" /\
  validate_cidr "10.0.2.0/24" = Ok "10.0.2.0/24".
Proof.
  apply (parse_args_result_is_validated
           ((opt_vpc_cidr, "10.9.0.0/16") :: Stub.demo)
           {| vpc_cidr := "10.0.0.0/16"; vpc_name := "demo";
              public_subnet_cidr := "10.0.1.0/24";
              private_subnet_cidr := "10.0.2.0/24";
              availability_zone := "us-east-1a" |}).
  reflexivity.
Defined.

(** ** The step functions one by one *)

Section StepFacts.

Variable St : Type.
Variable respond : St -> EC2.call -> St * EC2.reply.

Ltac unfold_step :=
  cbv beta iota delta
    [create_vpc create_internet_gateway create_subnet create_route_table
     bind ret emit print invoke truthy].

Ltac answer :=
  match goal with
  | |- context [respond ?s ?c] =>
      let E := fresh "E" in
      destruct (respond s c) as [? [?|?]] eqn:E
  | |- context [String.eqb ?a ""] =>
      let E := fresh "E" in
      destruct (String.eqb a "") eqn:E
  end; cbv beta iota delta [negb].

Ltac failing_at k :=
  first
    [ match goal with
      | h : string |- _ =>
          exists h, k; eexists;
          split; [simpl; lia | split; [reflexivity | split; reflexivity]]
      end
    | exists EmptyString, k; eexists;
      split; [simpl; lia | split; [reflexivity | split; reflexivity]] ].

Ltac outcome :=
  intros Hrun; injection Hrun as _ <- <-; unfold step_outcome;
  first
    [ split; [reflexivity | split; [repeat constructor | split; reflexivity]]
    | split; [reflexivity |];
      first [failing_at 0%nat | failing_at 1%nat
            | failing_at 2%nat | failing_at 3%nat] ].

(** X7: [create_vpc] creates, waits, tags, in that order: the VPC is
    tagged only once the wait has returned, the success line is printed
    only once the tag is set, and the id returned is the one [create_vpc]
    answered.  When a call fails, its exception is raised at once: the later
    calls are not made and nothing is printed. *)
Theorem create_vpc_outcome (cidr_block name : string) (s s' : St)
    (t : list event) (r : result string) :
  create_vpc respond cidr_block name s = (s', t, r) ->
  step_outcome (vpc_script cidr_block name)
    (success_line (step_create_vpc cidr_block name)) t r.
Proof. unfold_step; repeat answer; outcome. Qed.

(** X8: [create_internet_gateway] creates the gateway and attaches it to
    the VPC it was given; the success line is printed only once the
    attachment has returned.  When the attachment fails, the gateway has
    been created, stays unattached, and its id is neither returned nor
    printed. *)
Theorem create_internet_gateway_outcome (vpc_id : string) (s s' : St)
    (t : list event) (r : result string) :
  create_internet_gateway respond vpc_id s = (s', t, r) ->
  step_outcome (gateway_script vpc_id)
    (success_line (step_create_internet_gateway vpc_id)) t r.
Proof. unfold_step; repeat answer; outcome. Qed.

(** X9: [create_subnet] creates the subnet in the given VPC and zone and
    then tags it with the given name; the success line, which carries the
    id and the name, is printed only once the tag is set.  When the tagging
    fails, the subnet has been created, stays untagged, and its id is
    neither returned nor printed. *)
Theorem create_subnet_outcome (vpc_id cidr_block name az : string)
    (s s' : St) (t : list event) (r : result string) :
  create_subnet respond vpc_id cidr_block name az s = (s', t, r) ->
  step_outcome (subnet_script vpc_id cidr_block name az)
    (success_line (step_create_subnet vpc_id cidr_block name az)) t r.
Proof. unfold_step; repeat answer; outcome. Qed.

(** X10: [create_route_table] creates the table, tags it, associates it
    with the subnet, and then adds the default route to the gateway exactly
    when a gateway id is given and is not the empty string; with [None] or
    with the empty string it makes no [create_route] call and prints the
    private line.  It returns the table's id; a failed call ends it at
    once with nothing printed. *)
Theorem create_route_table_outcome (vpc_id subnet_id : string)
    (igw_id : option string) (name : string) (s s' : St)
    (t : list event) (r : result string) :
  create_route_table respond vpc_id subnet_id igw_id name s = (s', t, r) ->
  step_outcome (route_table_script vpc_id subnet_id igw_id name)
    (success_line (step_create_route_table vpc_id subnet_id igw_id name))
    t r.
Proof.
  destruct igw_id as [igw|]; unfold_step; repeat answer;
    unfold route_table_script, success_line, truthy;
    repeat match goal with
           | E : String.eqb _ _ = _ |- _ => rewrite E
           end;
    cbv beta iota delta [negb]; outcome.
Qed.

End StepFacts.

Lemma create_vpc_outcome_witness :
  step_outcome (vpc_script "10.0.0.0/16" "demo")
    (success_line (step_create_vpc "10.0.0.0/16" "demo"))
    (snd (fst (create_vpc (Stub.respond (Some 1%nat))
                 "10.0.0.0/16" "demo" 0%nat)))
    (snd (create_vpc (Stub.respond (Some 1%nat))
            "10.0.0.0/16" "demo" 0%nat)).
Proof.
  apply (create_vpc_outcome nat (Stub.respond (Some 1%nat))
           "10.0.0.0/16" "demo" 0%nat
           (fst (fst (create_vpc (Stub.respond (Some 1%nat))
                        "10.0.0.0/16" "demo" 0%nat)))).
  reflexivity.
Defined.

Lemma create_internet_gateway_outcome_witness :
  step_outcome (gateway_script "vpc-0")
    (success_line (step_create_internet_gateway "vpc-0"))
    (snd (fst (create_internet_gateway (Stub.respond (Some 1%nat))
                 "vpc-0" 0%nat)))
    (snd (create_internet_gateway (Stub.respond (Some 1%nat))
            "vpc-0" 0%nat)).
Proof.
  apply (create_internet_gateway_outcome nat (Stub.respond (Some 1%nat))
           "vpc-0" 0%nat
           (fst (fst (create_internet_gateway (Stub.respond (Some 1%nat))
                        "vpc-0" 0%nat)))).
  reflexivity.
Defined.

Lemma create_subnet_outcome_witness :
  step_outcome (subnet_script "vpc-0" "10.0.1.0/24" "PublicSubnet" "az")
    (success_line (step_create_subnet "vpc-0" "10.0.1.0/24" "PublicSubnet"
                     "az"))
    (snd (fst (create_subnet (Stub.respond None)
                 "vpc-0" "10.0.1.0/24" "PublicSubnet" "az" 0%nat)))
    (snd (create_subnet (Stub.respond None)
            "vpc-0" "10.0.1.0/24" "PublicSubnet" "az" 0%nat)).
Proof.
  apply (create_subnet_outcome nat (Stub.respond None)
           "vpc-0" "10.0.1.0/24" "PublicSubnet" "az" 0%nat
           (fst (fst (create_subnet (Stub.respond None)
                        "vpc-0" "10.0.1.0/24" "PublicSubnet" "az" 0%nat)))).
  reflexivity.
Defined.

Lemma create_route_table_outcome_witness :
  step_outcome
    (route_table_script "vpc-0" "subnet-5" (Some "igw-3") "PublicRouteTable")
    (success_line (step_create_route_table "vpc-0" "subnet-5" (Some "igw-3")
                     "PublicRouteTable"))
    (snd (fst (create_route_table (Stub.respond None) "vpc-0" "subnet-5"
                 (Some "igw-3") "PublicRouteTable" 0%nat)))
    (snd (create_route_table (Stub.respond None) "vpc-0" "subnet-5"
            (Some "igw-3") "PublicRouteTable" 0%nat)).
Proof.
  apply (create_route_table_outcome nat (Stub.respond None) "vpc-0"
           "subnet-5" (Some "igw-3") "PublicRouteTable" 0%nat
           (fst (fst (create_route_table (Stub.respond None) "vpc-0"
                        "subnet-5" (Some "igw-3") "PublicRouteTable"
                        0%nat)))).
  reflexivity.
Defined.

(** ** More on the runs of [main] *)

Section ScriptMore.

Variable St : Type.
Variable respond : St -> EC2.call -> St * EC2.reply.

Ltac unfold_script :=
  cbv beta iota delta
    [main provision create_vpc create_internet_gateway create_subnet
     create_route_table bind ret emit print invoke truthy trace_of exit_of].

Ltac answer :=
  match goal with
  | |- context [respond ?s ?c] =>
      let E := fresh "E" in
      destruct (respond s c) as [? [?|?]] eqn:E
  | |- context [String.eqb ?a ""] =>
      let E := fresh "E" in
      destruct (String.eqb a "") eqn:E
  end; cbv beta iota delta [negb].

Ltac all_runs line :=
  unfold_script;
  destruct (parse_args line) as [?err|?args] eqn:?Hparse;
  [| repeat answer].

Ltac positions H tac :=
  lazymatch type of H with
  | [] = _ => apply nil_eq_app in H; contradiction
  | _ :: _ = _ =>
      apply cons_eq_app in H;
      let Hx := fresh "Hx" in
      destruct H as [(-> & Hx & <-) | (? & -> & H)];
      [ first [ discriminate Hx | inversion Hx; subst; tac ]
      | positions H tac ]
  end.

Ltac rewrite_tests :=
  repeat match goal with
         | E : String.eqb _ _ = _ |- _ => rewrite E
         end.

(** X11: what a successful run prints.  When [main] returns normally, the
    client has returned six ids, one to each step, and exactly seven lines
    were printed: the VPC, the gateway and the two subnets each with the
    id its step was given; for the public route table the line naming the
    table by its tag, "PublicRouteTable", without its id, unless the
    gateway id is the empty string, in which case it is the private line
    with the table's id; the private line with the id of the private route
    table; and the line announcing that all resources were created. *)
Theorem success_report (line : command_line) (s s' : St) (t : list event) :
  main respond line s = (s', t, returns_normally) ->
  exists vpc igw pub priv rt_pub rt_priv,
    created t = [vpc; igw; pub; priv; rt_pub; rt_priv] /\
    stdout_of t
    = [ check_mark ++ " Created VPC: " ++ vpc;
        check_mark ++ " Created and attached Internet Gateway: " ++ igw;
        check_mark ++ " Created Subnet: " ++ pub ++ " (PublicSubnet)";
        check_mark ++ " Created Subnet: " ++ priv ++ " (PrivateSubnet)";
        if String.eqb igw ""
        then check_mark ++ " Created private Route Table: " ++ rt_pub
        else check_mark ++ " Public Route added to IGW in PublicRouteTable";
        check_mark ++ " Created private Route Table: " ++ rt_priv;
        success_banner ].
Proof.
  revert s' t.
  all_runs line; intros s' t Hrun; try discriminate Hrun;
    injection Hrun as _ <-;
    do 6 eexists; cbn [created stdout_of app]; rewrite_tests;
    split; reflexivity.
Qed.

Lemma calls_in_order (line : command_line) (s : St)
    (pre post : list event) (c : EC2.call) (rep : EC2.reply) :
  trace_of (main respond line s) = (pre ++ Call c rep :: post)%list ->
  call_in_order line pre c.
Proof.
  unfold vpc_name_of, call_in_order. unfold vpc_name_of.
  all_runs line; cbn [fst snd app]; intros Ht;
    positions Ht
      ltac:(split;
            [ repeat first [apply Forall_nil | apply Forall_cons];
              simpl; auto 10
            | repeat split; simpl; auto 12;
              try (intros ->; discriminate) ]).
Qed.

(** X12: handles are threaded forward only.  In every run, each handle a
    call passes to the client (the VPC of a subnet, of a route table or of
    an attachment, the resource of a tag, the table and subnet of an
    association, the table and gateway of a route) is an id that a creating
    call returned earlier in the same run. *)
Theorem handles_come_from_earlier_calls (line : command_line) (s s' : St)
    (t pre post : list event) (r : termination)
    (c : EC2.call) (rep : EC2.reply) :
  main respond line s = (s', t, r) ->
  t = (pre ++ Call c rep :: post)%list ->
  Forall (fun h => In h (created pre)) (uses c).
Proof.
  intros Hrun Ht.
  apply (calls_in_order line s pre post c rep).
  now rewrite Hrun.
Qed.

Lemma at_most_one_route (line : command_line) (s : St) :
  (length (filter is_create_route (calls_of (trace_of (main respond line s))))
   <= 1)%nat.
Proof. all_runs line; simpl; lia. Qed.

(** X13: the only route the script ever adds is the default route of the
    public route table.  In every run there is at most one [create_route]
    call; it is made in the fifth step, its destination is 0.0.0.0/0, and
    its gateway is a non-empty id that [create_internet_gateway]
    returned. *)
Theorem only_the_default_route (line : command_line) (s s' : St)
    (t pre post : list event) (r : termination)
    (table dest gw : string) (rep : EC2.reply) :
  main respond line s = (s', t, r) ->
  t = (pre ++ Call (EC2.create_route table dest gw) rep :: post)%list ->
  dest = "0.0.0.0/0" /\ gw <> "" /\
  length (steps_of pre) = 5%nat /\
  In (Call EC2.create_internet_gateway (EC2.Returns gw)) pre /\
  filter is_create_route (calls_of t) = [EC2.create_route table dest gw].
Proof.
  intros Hrun Ht.
  destruct (calls_in_order line s pre post
              (EC2.create_route table dest gw) rep)
    as (_ & Hd & Hg & Hk & Hin);
    [now rewrite Hrun|].
  repeat split; auto.
  pose proof (at_most_one_route line s) as Hone.
  rewrite Hrun in Hone. unfold trace_of in Hone. simpl in Hone.
  rewrite Ht, calls_of_app, filter_app in *. simpl in *.
  destruct (filter is_create_route (calls_of pre)) as [|x l];
    [|rewrite length_app in Hone; simpl in Hone; lia].
  destruct (filter is_create_route (calls_of post)) as [|y l];
    [reflexivity | simpl in Hone; lia].
Qed.

(** X14: the script sets no tag but [Name].  In every run, a [create_tags]
    call carries the key "Name", its value is the VPC name given on the
    command line or one of the four fixed names, and the resource it tags
    is one that a creating call returned earlier. *)
Theorem tags_are_names (line : command_line) (s s' : St)
    (t pre post : list event) (r : termination)
    (resource key value : string) (rep : EC2.reply) :
  main respond line s = (s', t, r) ->
  t = (pre ++ Call (EC2.create_tags resource key value) rep :: post)%list ->
  key = "Name" /\
  In value [vpc_name_of line; "PublicSubnet"; "PrivateSubnet";
            "PublicRouteTable"; "PrivateRouteTable"] /\
  In resource (created pre).
Proof.
  intros Hrun Ht.
  destruct (calls_in_order line s pre post
              (EC2.create_tags resource key value) rep)
    as (Huses & Hk & Hv);
    [now rewrite Hrun|].
  repeat split; auto. now inversion Huses.
Qed.

Lemma stdout_of_app (a b : list event) :
  stdout_of (a ++ b) = (stdout_of a ++ stdout_of b)%list.
Proof. induction a as [|[] a IH]; simpl; congruence. Qed.

Lemma banner_last (line : command_line) (s : St) :
  exit_of (main respond line s) = returns_normally ->
  last (stdout_of (trace_of (main respond line s))) "" = success_banner.
Proof.
  all_runs line; simpl; intros Hexit; try discriminate Hexit; reflexivity.
Qed.

Lemma clean_failure_of (t : list event) : clean t -> failure_of t = None.
Proof.
  induction 1 as [|x t Hx _ IH]; [reflexivity|].
  destruct x as [| |c [id|msg]| |]; try exact IH. discriminate Hx.
Qed.

(** X15: how [main] ends tells what happened.  A normal return means that
    the command line was complete and valid, that no client call failed and
    that the last line printed announces success.  A failed client call
    means exit status 1, with the error line of that failure printed last.
    Exit status 2 means that nothing was done: the client was not built,
    no call was made and nothing was printed on standard output. *)
Theorem exit_status (line : command_line) (s s' : St)
    (t : list event) (r : termination) :
  main respond line s = (s', t, r) ->
  (r = returns_normally ->
   (forall f, given f line = true) /\ cidrs_valid line /\ clean t /\
   last (stdout_of t) "" = success_banner) /\
  (forall c msg, failure_of t = Some (c, msg) ->
   r = SystemExit 1 /\ last (stdout_of t) "" = error_line msg) /\
  (r = SystemExit 2 ->
   ~ In (Resource "ec2") t /\ calls_of t = [] /\ stdout_of t = []).
Proof.
  intros Hrun. pose proof (main_shape St respond line s) as Hshape.
  pose proof (banner_last line s) as Hbanner.
  rewrite Hrun in Hshape, Hbanner. unfold trace_of, exit_of in Hbanner.
  cbn [fst snd] in Hbanner.
  inversion Hshape
    as [err Herr | args s1 body Hp Hc | args s1 pre c msg Hp Hc]; subst.
  - split; [discriminate|]. split.
    + intros c msg H. discriminate H.
    + intros _. split; [|split; reflexivity].
      intros [H|[]]; discriminate H.
  - assert (Hok : (forall f, given f line = true) /\ cidrs_valid line)
      by (apply parse_args_ok_iff; eauto).
    assert (Hclean : clean (Resource "ec2" :: body))
      by (constructor; [reflexivity | assumption]).
    split; [|split; [|discriminate]].
    + intros _. destruct Hok. repeat split; auto.
    + intros c msg H.
      rewrite (clean_failure_of _ Hclean) in H. discriminate H.
  - assert (Hfail : failure_of
                      (Resource "ec2"
                       :: pre ++ [Call c (EC2.Raises msg);
                                  Printed (error_line msg)])
                    = Some (c, msg)).
    { apply (failure_of_clean (Resource "ec2" :: pre)).
      constructor; [reflexivity | assumption]. }
    split; [discriminate|]. split; [|discriminate].
    intros c' msg' H. rewrite Hfail in H. injection H as <- <-.
    split; [reflexivity|].
    cbn [stdout_of]. rewrite stdout_of_app. cbn [stdout_of].
    apply last_last.
Qed.

(** X16: the empty gateway id.  When [main] returns normally against a
    client that answered [create_internet_gateway] with the empty string,
    no [create_route] call was made at all, and the fifth line printed is
    the private line for the public route table. *)
Theorem empty_gateway_id_makes_no_route (line : command_line) (s s' : St)
    (t : list event) :
  main respond line s = (s', t, returns_normally) ->
  In (Call EC2.create_internet_gateway (EC2.Returns "")) t ->
  filter is_create_route (calls_of t) = [] /\
  exists rt_pub,
    nth_error (created t) 4 = Some rt_pub /\
    nth_error (stdout_of t) 4
    = Some (check_mark ++ " Created private Route Table: " ++ rt_pub).
Proof.
  intros Hrun Hin. revert Hrun Hin.
  all_runs line; intros Hrun Hin; try discriminate Hrun;
    injection Hrun as _ <-.
  - split; [reflexivity | eexists; split; reflexivity].
  - exfalso. simpl in Hin.
    repeat (destruct Hin as [Hin|Hin];
            [first [discriminate Hin | injection Hin as ->; discriminate]|]).
    exact Hin.
Qed.

Lemma first_call (line : command_line) (s : St) :
  hd_error (calls_of (trace_of (main respond line s)))
  = match parse_args line with
    | inr args => Some (EC2.create_vpc (vpc_cidr args))
    | inl _ => None
    end.
Proof. all_runs line; reflexivity. Qed.

(** X17: whenever [main] calls the client at all, the first call it makes
    is [create_vpc] with the CIDR block exactly as it was typed for the
    last [--vpc-cidr]: a value [validate_cidr] accepted, passed on without
    being normalised. *)
Theorem vpc_created_first_as_typed (line : command_line) (s s' : St)
    (t : list event) (r : termination) :
  main respond line s = (s', t, r) ->
  calls_of t <> [] ->
  exists v,
    last_value opt_vpc_cidr line = Some v /\
    validate_cidr v = Ok v /\
    hd_error (calls_of t) = Some (EC2.create_vpc v).
Proof.
  intros Hrun Hcalls. pose proof (first_call line s) as Hfirst.
  rewrite Hrun in Hfirst. unfold trace_of in Hfirst. simpl in Hfirst.
  destruct (parse_args line) as [err|args] eqn:Hparse.
  - exfalso. destruct (calls_of t); [now apply Hcalls | discriminate Hfirst].
  - exists (vpc_cidr args).
    destruct (parse_args_last_values line args Hparse) as (Hv & _).
    repeat split; auto.
    assert (Hvalid : cidrs_valid line).
    { apply parse_args_ok_iff. eauto. }
    apply (Hvalid opt_vpc_cidr); [|reflexivity].
    now apply last_value_in.
Qed.

End ScriptMore.

(** ** The further properties on the test clients *)

Lemma success_report_witness :
  exists vpc igw pub priv rt_pub rt_priv,
    created (trace_of (Stub.run None Stub.demo))
    = [vpc; igw; pub; priv; rt_pub; rt_priv] /\
    stdout_of (trace_of (Stub.run None Stub.demo))
    = [ check_mark ++ " Created VPC: " ++ vpc;
        check_mark ++ " Created and attached Internet Gateway: " ++ igw;
        check_mark ++ " Created Subnet: " ++ pub ++ " (PublicSubnet)";
        check_mark ++ " Created Subnet: " ++ priv ++ " (PrivateSubnet)";
        if String.eqb igw ""
        then check_mark ++ " Created private Route Table: " ++ rt_pub
        else check_mark ++ " Public Route added to IGW in PublicRouteTable";
        check_mark ++ " Created private Route Table: " ++ rt_priv;
        success_banner ].
Proof.
  apply (success_report nat (Stub.respond None) Stub.demo 0%nat
           (fst (fst (Stub.run None Stub.demo)))).
  reflexivity.
Defined.

Lemma handles_come_from_earlier_calls_witness :
  Forall
    (fun h => In h (created (firstn 21 (trace_of (Stub.run None Stub.demo)))))
    (uses (EC2.associate_with_subnet "rtb-9" "subnet-5")).
Proof.
  apply (handles_come_from_earlier_calls nat (Stub.respond None) Stub.demo
           0%nat (fst (fst (Stub.run None Stub.demo)))
           (trace_of (Stub.run None Stub.demo))
           (firstn 21 (trace_of (Stub.run None Stub.demo)))
           (skipn 22 (trace_of (Stub.run None Stub.demo)))
           (exit_of (Stub.run None Stub.demo))
           (EC2.associate_with_subnet "rtb-9" "subnet-5")
           (EC2.Returns "none-11")).
  - reflexivity.
  - reflexivity.
Defined.

Lemma only_the_default_route_witness :
  "0.0.0.0/0" = "0.0.0.0/0" /\ "igw-3" <> "" /\
  length (steps_of (firstn 22 (trace_of (Stub.run None Stub.demo)))) = 5%nat /\
  In (Call EC2.create_internet_gateway (EC2.Returns "igw-3"))
     (firstn 22 (trace_of (Stub.run None Stub.demo))) /\
  filter is_create_route (calls_of (trace_of (Stub.run None Stub.demo)))
  = [EC2.create_route "rtb-9" "0.0.0.0/0" "igw-3"].
Proof.
  apply (only_the_default_route nat (Stub.respond None) Stub.demo
           0%nat (fst (fst (Stub.run None Stub.demo)))
           (trace_of (Stub.run None Stub.demo))
           (firstn 22 (trace_of (Stub.run None Stub.demo)))
           (skipn 23 (trace_of (Stub.run None Stub.demo)))
           (exit_of (Stub.run None Stub.demo))
           "rtb-9" "0.0.0.0/0" "igw-3" (EC2.Returns "none-12")).
  - reflexivity.
  - reflexivity.
Defined.

Lemma tags_are_names_witness :
  "Name" = "Name" /\
  In "PublicRouteTable"
     [vpc_name_of Stub.demo; "PublicSubnet"; "PrivateSubnet";
      "PublicRouteTable"; "PrivateRouteTable"] /\
  In "rtb-9" (created (firstn 20 (trace_of (Stub.run None Stub.demo)))).
Proof.
  apply (tags_are_names nat (Stub.respond None) Stub.demo
           0%nat (fst (fst (Stub.run None Stub.demo)))
           (trace_of (Stub.run None Stub.demo))
           (firstn 20 (trace_of (Stub.run None Stub.demo)))
           (skipn 21 (trace_of (Stub.run None Stub.demo)))
           (exit_of (Stub.run None Stub.demo))
           "rtb-9" "Name" "PublicRouteTable" (EC2.Returns "none-10")).
  - reflexivity.
  - reflexivity.
Defined.

Lemma exit_status_witness :
  exit_of (Stub.run (Some 7%nat) Stub.demo) = SystemExit 1 /\
  last (stdout_of (trace_of (Stub.run (Some 7%nat) Stub.demo))) ""
  = error_line "denied: create_subnet".
Proof.
  destruct (exit_status nat (Stub.respond (Some 7%nat)) Stub.demo 0%nat
              (fst (fst (Stub.run (Some 7%nat) Stub.demo)))
              (trace_of (Stub.run (Some 7%nat) Stub.demo))
              (exit_of (Stub.run (Some 7%nat) Stub.demo)) eq_refl)
    as (_ & H & _).
  apply (H (EC2.create_subnet "vpc-0" "10.0.2.0/24" "us-east-1a")).
  reflexivity.
Defined.

Lemma empty_gateway_id_makes_no_route_witness :
  filter is_create_route (calls_of (trace_of Stub.blank_run)) = [] /\
  exists rt_pub,
    nth_error (created (trace_of Stub.blank_run)) 4 = Some rt_pub /\
    nth_error (stdout_of (trace_of Stub.blank_run)) 4
    = Some (check_mark ++ " Created private Route Table: " ++ rt_pub).
Proof.
  apply (empty_gateway_id_makes_no_route nat Stub.respond_blank Stub.demo
           0%nat (fst (fst Stub.blank_run))).
  - reflexivity.
  - simpl. auto 10.
Defined.

Lemma vpc_created_first_as_typed_witness :
  exists v,
    last_value opt_vpc_cidr Stub.demo = Some v /\
    validate_cidr v = Ok v /\
    hd_error (calls_of (trace_of (Stub.run None Stub.demo)))
    = Some (EC2.create_vpc v).
Proof.
  apply (vpc_created_first_as_typed nat (Stub.respond None) Stub.demo 0%nat
           (fst (fst (Stub.run None Stub.demo)))
           (trace_of (Stub.run None Stub.demo))
           (exit_of (Stub.run None Stub.demo))).
  - reflexivity.
  - vm_compute. discriminate.
Defined.
